(** * FFIEC / NIC / FDIC data downloader: a model of
      [code/data_downloaders/ffiec_nic_downloader.py]

    The script is sequential I/O glue: HTTP requests, file writes, directory
    creation and archive extraction.  It is embedded here as a state and
    exception monad over a [world] made of
    - a filesystem (a finite map from paths to nodes),
    - the text printed on standard output, and
    - the list of HTTP requests sent so far.
    Everything the script delegates to the outside (the network, the
    [requests], [zipfile] and [json] decoders, the clock) is gathered in an
    environment record [env]. *)

From stdpp Require Import gmap strings list fin_maps pretty.
From Stdlib Require Import ZArith.
From Stdlib.Strings Require Import Byte Ascii.

Local Open Scope string_scope.
Local Open Scope list_scope.
Local Open Scope Z_scope.

(** ** Values *)

Abbreviation bytes := (list byte).
Abbreviation path := (list string).

(** The result of [json.loads]: Python [None], [bool], [int], [float],
    [str], [list] and [dict] (insertion ordered).  A float is kept as a
    binary mantissa and exponent; only its being zero is ever inspected. *)
#[warnings="-register-all"]
Inductive json : Type :=
| JNull
| JBool (b : bool)
| JInt (z : Z)
| JFloat (mantissa exponent : Z)
| JStr (s : string)
| JArr (items : list json)
| JObj (fields : list (string * json)).

(** What a file holds.  Serialisation by [json.dump] and by [csv.DictWriter]
    is delegated to the standard library, so such files are kept in their
    structured form. *)
Inductive content : Type :=
| Raw (data : bytes)
| Text (s : string)
| JsonDoc (j : json)
| CsvDoc (header : list string) (rows : list (list json)).

Inductive node : Type :=
| Dir
| File (c : content).

(** ** Exceptions *)

Inductive os_error : Type :=
| FileNotFoundError | FileExistsError | IsADirectoryError | NotADirectoryError.

(** The subclasses of [requests.exceptions.RequestException] that the calls
    of the script can meet. *)
Inductive request_error : Type :=
| Timeout
| ConnectionError
| HTTPError (status : Z)
| ChunkedEncodingError
| JSONDecodeError.

Inductive exn : Type :=
| RequestException (e : request_error)
| BadZipFile
| OSError (e : os_error) (p : path)
| ValueError
| TypeError
| KeyError
| IndexError
| AttributeError.

Definition is_RequestException (e : exn) : bool :=
  match e with RequestException _ => true | _ => false end.

Definition is_BadZipFile (e : exn) : bool :=
  match e with BadZipFile => true | _ => false end.

(** ** The world and the monad *)

Record request := {
  req_url : string;
  req_headers : list (string * string);
  req_params : list (string * string);
  req_stream : bool;
  req_timeout : Z }.

Inductive event : Type :=
| Log (message : string)            (* print(f"[{timestamp}] {message}") *)
| Print (line : string)             (* print(line) *)
| Progress (downloaded total : Z)   (* print(f"\r  Progress: {pct:.1f}%") *)
| Help.                             (* parser.print_help() *)

Record world := {
  fs : gmap path node;
  out : list event;
  reqs : list request }.

Inductive outcome (A : Type) : Type :=
| Ok (a : A)
| Raise (e : exn).
Arguments Ok {A} a.
Arguments Raise {A} e.

Definition M (A : Type) : Type := world → outcome A * world.

Global Instance M_ret : MRet M := λ A a w, (Ok a, w).
Global Instance M_bind : MBind M := λ A B k m w,
  match m w with
  | (Ok a, w') => k a w'
  | (Raise e, w') => (Raise e, w')
  end.

Definition raise {A} (e : exn) : M A := λ w, (Raise e, w).

(** [try: body  except <handled>: handler] *)
Definition try_except {A} (body : M A) (handled : exn → bool)
    (handler : exn → M A) : M A := λ w,
  match body w with
  | (Ok a, w') => (Ok a, w')
  | (Raise e, w') => if handled e then handler e w' else (Raise e, w')
  end.

Definition emit (ev : event) : M unit := λ w,
  (Ok tt, {| fs := fs w; out := out w ++ [ev]; reqs := reqs w |}).

Definition print (line : string) : M unit := emit (Print line).

Definition get_fs : M (gmap path node) := λ w, (Ok (fs w), w).

Definition set_fs (f : gmap path node) : M unit := λ w,
  (Ok tt, {| fs := f; out := out w; reqs := reqs w |}).

(** ** The filesystem *)

(** A path is the list of its components below the process's root; the
    empty path is that root and is always a directory. *)
Definition lookup_node (f : gmap path node) (p : path) : option node :=
  match p with
  | [] => Some Dir
  | _ => f !! p
  end.

Definition is_dir (f : gmap path node) (p : path) : bool :=
  match lookup_node f p with Some Dir => true | _ => false end.

Definition exists_node (f : gmap path node) (p : path) : bool :=
  match lookup_node f p with Some _ => true | None => false end.

(** [Path.parent] *)
Definition parent (p : path) : path := removelast p.

(** [os.mkdir(p)] *)
Definition os_mkdir (p : path) : M unit :=
  f ← get_fs;
  match lookup_node f p with
  | Some _ => raise (OSError FileExistsError p)
  | None =>
      match lookup_node f (parent p) with
      | Some Dir => set_fs (<[p := Dir]> f)
      | Some (File _) => raise (OSError NotADirectoryError p)
      | None => raise (OSError FileNotFoundError p)
      end
  end.

Definition is_FileNotFoundError (e : exn) : bool :=
  match e with OSError FileNotFoundError _ => true | _ => false end.

Definition is_OSError (e : exn) : bool :=
  match e with OSError _ _ => true | _ => false end.

(** [Path.mkdir(parents=False, exist_ok=exist_ok)]: the [OSError] of
    [os.mkdir] is swallowed when [exist_ok] holds and the path is a
    directory; [FileNotFoundError] is re-raised. *)
Definition mkdir_flat (p : path) (exist_ok : bool) : M unit :=
  try_except (os_mkdir p) is_OSError (λ e,
    if is_FileNotFoundError e then raise e
    else
      f ← get_fs;
      if exist_ok && is_dir f p then mret tt else raise e).

(** [Path.mkdir(parents, exist_ok)], by recursion on the reversed path:
    on [FileNotFoundError] with [parents], the parent is made with
    [parents=True, exist_ok=True] and the path is retried without
    [parents]. *)
Fixpoint mkdir_rev (rp : path) (parents exist_ok : bool) : M unit :=
  let p := rev rp in
  try_except (os_mkdir p) is_OSError (λ e,
    if is_FileNotFoundError e then
      match rp with
      | [] => raise e
      | _ :: rp' =>
          if parents then
            mkdir_rev rp' true true;;
            mkdir_flat p exist_ok
          else raise e
      end
    else
      f ← get_fs;
      if exist_ok && is_dir f p then mret tt else raise e).

Definition mkdir (p : path) (parents exist_ok : bool) : M unit :=
  mkdir_rev (rev p) parents exist_ok.

(** [open(p, 'w')] or [open(p, 'wb')]: creates or truncates the file. *)
Definition open_w (p : path) : M unit :=
  f ← get_fs;
  match lookup_node f p with
  | Some Dir => raise (OSError IsADirectoryError p)
  | _ =>
      match lookup_node f (parent p) with
      | Some Dir => set_fs (<[p := File (Raw [])]> f)
      | Some (File _) => raise (OSError NotADirectoryError p)
      | None => raise (OSError FileNotFoundError p)
      end
  end.

(** Writing to a file opened by [open_w]: [set_content] for a document
    written in one piece, [append_raw] for one more chunk of bytes. *)
Definition set_content (c : content) (n : node) : node :=
  match n with
  | File _ => File c
  | Dir => Dir
  end.

(** A write through an open file changes the node at its path, if any. *)
Definition alter_node (g : node → node) (p : path) : M unit :=
  f ← get_fs; set_fs (alter g p f).

Definition put_content (p : path) (c : content) : M unit :=
  alter_node (set_content c) p.

Definition append_raw (chunk : bytes) (n : node) : node :=
  match n with
  | File (Raw b) => File (Raw (b ++ chunk))
  | _ => n
  end.

Definition write_bytes (p : path) (chunk : bytes) : M unit :=
  alter_node (append_raw chunk) p.

(** [open(p, 'rb')] followed by reading the whole file. *)
Definition read_file (p : path) : M content :=
  f ← get_fs;
  match lookup_node f p with
  | Some (File c) => mret c
  | Some Dir => raise (OSError IsADirectoryError p)
  | None => raise (OSError FileNotFoundError p)
  end.

(** [os.makedirs(p)] with [exist_ok=False], as [zipfile] calls it: missing
    ancestors are made first, a [FileExistsError] from them is ignored. *)
Definition is_FileExistsError (e : exn) : bool :=
  match e with OSError FileExistsError _ => true | _ => false end.

Fixpoint makedirs_rev (rp : path) : M unit :=
  match rp with
  | [] => os_mkdir []
  | _ :: rp' =>
      f ← get_fs;
      (if exists_node f (rev rp') then mret tt
       else try_except (makedirs_rev rp') is_FileExistsError (λ _, mret tt));;
      os_mkdir (rev rp)
  end.

Definition makedirs (p : path) : M unit := makedirs_rev (rev p).

(** ** Strings and paths *)

Definition nl : string := String "010"%char EmptyString.
Definition dq : string := String "034"%char EmptyString.

(** [c * n] for a one-character string [c] *)
Fixpoint string_repeat (c : string) (n : nat) : string :=
  match n with
  | O => EmptyString
  | S n' => c +:+ string_repeat c n'
  end.

(** [s.split("/")] *)
Fixpoint split_slash (s : string) (cur : string) : list string :=
  match s with
  | EmptyString => [cur]
  | String c s' =>
      if Ascii.eqb c "/"%char then cur :: split_slash s' EmptyString
      else split_slash s' (cur +:+ String c EmptyString)
  end.

(** The parts of [Path(s)]: empty and [.] components are dropped.  Paths are
    taken below one root, so an absolute and a relative spelling of the same
    components name the same node. *)
Definition path_of_string (s : string) : path :=
  filter (λ c, c ≠ "" ∧ c ≠ ".") (split_slash s "").

(** [p / s] of [pathlib]: an absolute [s] replaces [p]. *)
Definition path_div (p : path) (s : string) : path :=
  if String.prefix "/" s then path_of_string s else p ++ path_of_string s.

(** [str(p)] *)
Definition show_path (p : path) : string :=
  match p with
  | [] => "."
  | _ => String.concat "/" p
  end.

(** [s.rfind(".")], scanning with the current index. *)
Fixpoint rfind_dot (s : string) (i : nat) (last : option nat) : option nat :=
  match s with
  | EmptyString => last
  | String c s' =>
      rfind_dot s' (S i) (if Ascii.eqb c "."%char then Some i else last)
  end.

(** [Path(name).stem] for a one-component [name]: the name without its last
    suffix; a leading or a trailing dot starts no suffix. *)
Definition stem (name : string) : string :=
  match rfind_dot name 0 None with
  | Some i =>
      if (0 <? i)%nat && (S i <? String.length name)%nat
      then String.substring 0 i name
      else name
  | None => name
  end.

(** [needle in hay] for two [str] *)
Fixpoint str_contains (needle hay : string) : bool :=
  String.prefix needle hay ||
  match hay with
  | EmptyString => false
  | String _ hay' => str_contains needle hay'
  end.

(** ** The outside world *)

(** A response of [requests]: the final status code, the result of
    [int(headers['content-length'])] when the header is present ([None]
    inside: [int] raises [ValueError]), the chunks [iter_content] yields,
    and the error that interrupts the body after them, if any. *)
Record http_response := {
  status_code : Z;
  content_length : option (option Z);
  body : list bytes;
  body_error : option request_error }.

Inductive reply : Type :=
| NoResponse (e : request_error)
| Response (r : http_response).

(** A member of an archive, as [zipfile] sees it: [Sound], or with a
    damaged local header ([BadZipFile] when the member is opened), or with a
    failing checksum ([BadZipFile] once [copied] bytes reached the target). *)
Inductive member_state : Type :=
| Sound
| BadHeader
| BadCrc (copied : bytes).

Record zip_member := {
  zm_filename : string;
  zm_data : bytes;
  zm_state : member_state }.

Record env := {
  (** the network: what [session.get] meets for a request *)
  session_get : request → reply;
  (** [zipfile.ZipFile(...)]: the members of a readable archive *)
  zip_open : bytes → option (list zip_member);
  (** [json.loads] behind [response.json()] *)
  json_loads : bytes → option json;
  (** [datetime.now().isoformat()] *)
  now_iso : string }.

(** ** Configuration and the catalog of sources *)

Definition DEFAULT_OUTPUT_DIR : string := "./data/downloads".
Definition USER_AGENT : string :=
  "Mozilla/5.0 (Windows NT 10.0; Win64; x64) AppleWebKit/537.36".

Record source := {
  name : string;
  description : string;
  url : string;
  format : string;
  direct_download : bool;
  filename : string }.

Definition DATA_SOURCES : list (string * source) := [
  ("fdic_failed_banks",
   {| name := "FDIC Failed Bank List";
      description := "List of all FDIC-insured banks that have failed since October 1, 2000";
      url := "https://www.fdic.gov/bank-failures/download-data.csv";
      format := "csv";
      direct_download := true;
      filename := "fdic_failed_banks.csv" |});
  ("fdic_failed_banks_legacy",
   {| name := "FDIC Failed Bank List (Legacy URL)";
      description := "Alternative URL for failed bank list";
      url := "https://www.fdic.gov/resources/resolutions/bank-failures/failed-bank-list/banklist.csv";
      format := "csv";
      direct_download := true;
      filename := "fdic_failed_banks_legacy.csv" |});
  ("nic_data_dictionary",
   {| name := "NIC Data Dictionary";
      description := "Documentation for NIC bulk data tables (Attributes, Relationships, Transformations)";
      url := "https://www.ffiec.gov/npw/StaticData/DataDownload/NPW%20Data%20Dictionary.pdf";
      format := "pdf";
      direct_download := true;
      filename := "NPW_Data_Dictionary.pdf" |});
  ("nic_attributes_csv",
   {| name := "NIC Attributes Table (CSV)";
      description := "Institution attributes data - entity characteristics";
      url := "https://www.ffiec.gov/npw/StaticData/DataDownload/CSV/CSV_ATTRIBUTES_ACTIVE.zip";
      format := "zip";
      direct_download := true;
      filename := "NIC_Attributes_Active.zip" |});
  ("nic_attributes_closed_csv",
   {| name := "NIC Attributes Table - Closed Institutions (CSV)";
      description := "Attributes for closed/failed institutions";
      url := "https://www.ffiec.gov/npw/StaticData/DataDownload/CSV/CSV_ATTRIBUTES_CLOSED.zip";
      format := "zip";
      direct_download := true;
      filename := "NIC_Attributes_Closed.zip" |});
  ("nic_attributes_branches_csv",
   {| name := "NIC Attributes Table - Branches (CSV)";
      description := "Branch office attributes";
      url := "https://www.ffiec.gov/npw/StaticData/DataDownload/CSV/CSV_ATTRIBUTES_BRANCHES.zip";
      format := "zip";
      direct_download := true;
      filename := "NIC_Attributes_Branches.zip" |});
  ("nic_relationships_csv",
   {| name := "NIC Relationships Table (CSV)";
      description := "Ownership relationships between institutions";
      url := "https://www.ffiec.gov/npw/StaticData/DataDownload/CSV/CSV_RELATIONSHIPS.zip";
      format := "zip";
      direct_download := true;
      filename := "NIC_Relationships.zip" |});
  ("nic_transformations_csv",
   {| name := "NIC Transformations Table (CSV)";
      description := "Mergers, acquisitions, and other transformation events";
      url := "https://www.ffiec.gov/npw/StaticData/DataDownload/CSV/CSV_TRANSFORMATIONS.zip";
      format := "zip";
      direct_download := true;
      filename := "NIC_Transformations.zip" |})
].

Definition FDIC_API_BASE : string := "https://banks.data.fdic.gov/api".

(** ** Python dictionaries as insertion-ordered association lists *)

(** [d[key]] *)
Fixpoint dict_get {V} (d : list (string * V)) (key : string) : option V :=
  match d with
  | [] => None
  | (k, v) :: d' => if String.eqb k key then Some v else dict_get d' key
  end.

(** [d[key] = v] *)
Fixpoint dict_set {V} (d : list (string * V)) (key : string) (v : V)
    : list (string * V) :=
  match d with
  | [] => [(key, v)]
  | (k, v') :: d' =>
      if String.eqb k key then (k, v) :: d' else (k, v') :: dict_set d' key v
  end.

Definition getitem {V} (d : list (string * V)) (key : string) : M V :=
  match dict_get d key with
  | Some v => mret v
  | None => raise KeyError
  end.

(** ** Python values *)

(** [bool(j)] *)
Definition truthy (j : json) : bool :=
  match j with
  | JNull => false
  | JBool b => b
  | JInt z => negb (z =? 0)%Z
  | JFloat m _ => negb (m =? 0)%Z
  | JStr s => negb (String.eqb s "")
  | JArr items => match items with [] => false | _ => true end
  | JObj fields => match fields with [] => false | _ => true end
  end.

Definition is_JStr (key : string) (j : json) : bool :=
  match j with JStr s => String.eqb s key | _ => false end.

(** [key in j] for a [str] key *)
Definition py_in (key : string) (j : json) : M bool :=
  match j with
  | JObj fields => mret (existsb (λ kv, String.eqb (fst kv) key) fields)
  | JArr items => mret (existsb (is_JStr key) items)
  | JStr s => mret (str_contains key s)
  | _ => raise TypeError
  end.

(** [j[key]] for a [str] key *)
Definition py_getitem (j : json) (key : string) : M json :=
  match j with
  | JObj fields => getitem fields key
  | _ => raise TypeError
  end.

(** [j[0]] *)
Definition py_first (j : json) : M json :=
  match j with
  | JArr [] => raise IndexError
  | JArr (x :: _) => mret x
  | JStr EmptyString => raise IndexError
  | JStr (String c _) => mret (JStr (String c EmptyString))
  | JObj _ => raise KeyError
  | _ => raise TypeError
  end.

(** [j.keys()] *)
Definition py_keys (j : json) : M (list string) :=
  match j with
  | JObj fields => mret (map fst fields)
  | _ => raise AttributeError
  end.

(** [for row in j], the items a loop over [j] visits; of the values that
    reach the loop of [writerows] only a list has any. *)
Definition py_iter (j : json) : list json :=
  match j with
  | JArr items => items
  | _ => []
  end.

Definition exn_text (e : exn) : string :=
  match e with
  | RequestException Timeout => "Timeout"
  | RequestException ConnectionError => "ConnectionError"
  | RequestException (HTTPError s) => pretty s +:+ " Error"
  | RequestException ChunkedEncodingError => "ChunkedEncodingError"
  | RequestException JSONDecodeError => "JSONDecodeError"
  | BadZipFile => "File is not a zip file"
  | OSError _ p => show_path p
  | ValueError => "ValueError"
  | TypeError => "TypeError"
  | KeyError => "KeyError"
  | IndexError => "IndexError"
  | AttributeError => "AttributeError"
  end.

(** ** The [requests] session *)

Definition session_headers : list (string * string) :=
  [("User-Agent", USER_AGENT)].

(** [response.raise_for_status()]: [HTTPError] for a 4xx or a 5xx status. *)
Definition raise_for_status (r : http_response) : M unit :=
  if (400 <=? status_code r) && (status_code r <? 600)
  then raise (RequestException (HTTPError (status_code r)))
  else mret tt.

(** [int(response.headers.get('content-length', 0))] *)
Definition int_content_length (r : http_response) : M Z :=
  match content_length r with
  | None => mret 0
  | Some None => raise ValueError
  | Some (Some n) => mret n
  end.

(** [DictWriter._dict_to_list]: a key outside the field names is a
    [ValueError], a missing one is filled with the empty string. *)
Definition row_cells (fieldnames : list string) (row : json) : list json :=
  map (λ h, match row with
            | JObj fields => default (JStr "") (dict_get fields h)
            | _ => JStr ""
            end) fieldnames.

Definition dict_to_list (fieldnames : list string) (row : json)
    : M (list json) :=
  keys ← py_keys row;
  if forallb (λ k, existsb (String.eqb k) fieldnames) keys
  then mret (row_cells fieldnames row)
  else raise ValueError.

Definition append_row (r : list json) (n : node) : node :=
  match n with
  | File (CsvDoc h rows) => File (CsvDoc h (rows ++ [r]))
  | _ => n
  end.

(** [writer.writerows(records)] on the file at [p] *)
Fixpoint writerows (p : path) (fieldnames : list string) (rows : list json)
    : M unit :=
  match rows with
  | [] => mret tt
  | row :: rows' =>
      r ← dict_to_list fieldnames row;
      alter_node (append_row r) p;;
      writerows p fieldnames rows'
  end.

(** ** The downloader *)

Record FFIECDownloader := {
  output_dir : path;
  verbose : bool }.

Section Downloader.

Variable E : env.

(** [self.session.get(...)]: the request is sent; a response whose body is
    read at once ([stream=False]) fails there when the body is interrupted. *)
Definition get (req : request) : M http_response := λ w,
  let w' := {| fs := fs w; out := out w; reqs := reqs w ++ [req] |} in
  match session_get E req with
  | NoResponse e => (Raise (RequestException e), w')
  | Response r =>
      if req_stream req then (Ok r, w')
      else match body_error r with
           | Some e => (Raise (RequestException e), w')
           | None => (Ok r, w')
           end
  end.

Definition init (out_dir : path) (verb : bool) : M FFIECDownloader :=
  let self := {| output_dir := out_dir; verbose := verb |} in
  mkdir (output_dir self) true true;;
  mkdir (path_div (output_dir self) "fdic") false true;;
  mkdir (path_div (output_dir self) "nic") false true;;
  mkdir (path_div (output_dir self) "chicago_fed") false true;;
  mkdir (path_div (output_dir self) "metadata") false true;;
  mret self.

Definition log (self : FFIECDownloader) (message : string) : M unit :=
  if verbose self then emit (Log message) else mret tt.

(** The loop over [response.iter_content(chunk_size=8192)] *)
Fixpoint write_chunks (self : FFIECDownloader) (output_path : path)
    (total_size : Z) (chunks : list bytes) (downloaded : Z) : M Z :=
  match chunks with
  | [] => mret downloaded
  | chunk :: chunks' =>
      match chunk with
      | [] => write_chunks self output_path total_size chunks' downloaded
      | _ =>
          write_bytes output_path chunk;;
          let downloaded := downloaded + Z.of_nat (length chunk) in
          (if verbose self && (0 <? total_size)
           then emit (Progress downloaded total_size) else mret tt);;
          write_chunks self output_path total_size chunks' downloaded
      end
  end.

Definition download_file (self : FFIECDownloader) (url : string)
    (output_path : path) (description : string) : M bool :=
  try_except
    (log self ("Downloading: " +:+
               (if String.eqb description "" then url else description));;
     response ← get {| req_url := url; req_headers := session_headers;
                       req_params := []; req_stream := true;
                       req_timeout := 120 |};
     raise_for_status response;;
     total_size ← int_content_length response;
     open_w output_path;;
     write_chunks self output_path total_size (body response) 0;;
     match body_error response with
     | Some e => raise (RequestException e)
     | None => mret tt
     end;;
     (if verbose self && (0 <? total_size) then print "" else mret tt);;
     log self ("  Saved to: " +:+ show_path output_path);;
     mret true)
    is_RequestException
    (λ e,
     log self ("  ERROR: Failed to download " +:+ url +:+ ": " +:+ exn_text e);;
     mret false).

(** [zipfile.ZipFile(zip_path, 'r')] *)
Definition ZipFile (zip_path : path) : M (list zip_member) :=
  c ← read_file zip_path;
  match c with
  | Raw b =>
      match zip_open E b with
      | Some members => mret members
      | None => raise BadZipFile
      end
  | _ => raise BadZipFile
  end.

(** The target of a member below the extraction directory: the name is cut
    at [/] and its empty, [.] and [..] parts are dropped. *)
Definition member_parts (arcname : string) : path :=
  filter (λ c, c ≠ "" ∧ c ≠ "." ∧ c ≠ "..") (split_slash arcname "").

Definition member_target (targetpath : path) (m : zip_member) : path :=
  targetpath ++ member_parts (zm_filename m).

(** [ZipInfo.is_dir()]: the name ends with a slash. *)
Definition member_is_dir (m : zip_member) : bool :=
  match last (split_slash (zm_filename m) "") with
  | Some "" => negb (String.eqb (zm_filename m) "")
  | _ => false
  end.

(** [ZipFile._extract_member] *)
Definition extract_member (targetpath : path) (m : zip_member) : M unit :=
  let target := member_target targetpath m in
  let upperdirs := parent target in
  f ← get_fs;
  (if exists_node f upperdirs then mret tt else makedirs upperdirs);;
  if member_is_dir m then
    f ← get_fs;
    if is_dir f target then mret tt else os_mkdir target
  else
    match zm_state m with
    | BadHeader => raise BadZipFile
    | Sound => open_w target;; write_bytes target (zm_data m)
    | BadCrc copied =>
        open_w target;; write_bytes target copied;; raise BadZipFile
    end.

(** [zf.extractall(extract_dir)] *)
Fixpoint extractall (members : list zip_member) (targetpath : path) : M unit :=
  match members with
  | [] => mret tt
  | m :: members' =>
      extract_member targetpath m;;
      extractall members' targetpath
  end.

Definition extract_zip (self : FFIECDownloader) (zip_path extract_dir : path)
    : M (list path) :=
  try_except
    (zf ← ZipFile zip_path;
     extractall zf extract_dir;;
     let extracted := map (λ m, path_div extract_dir (zm_filename m)) zf in
     log self ("  Extracted " +:+ pretty (length extracted) +:+
               " files to " +:+ show_path extract_dir);;
     mret extracted)
    is_BadZipFile
    (λ e,
     log self ("  ERROR: Bad zip file " +:+ show_path zip_path +:+ ": " +:+
               exn_text e);;
     mret []).

(** *** FDIC downloads *)

(** The body of [for key in [...]] of [download_fdic_failed_banks], with the
    running value of [success]. *)
Fixpoint fdic_loop (self : FFIECDownloader) (keys : list string)
    (success : bool) : M bool :=
  match keys with
  | [] => mret success
  | key :: keys' =>
      source ← getitem DATA_SOURCES key;
      let output_path :=
        path_div (path_div (output_dir self) "fdic") (filename source) in
      ok ← download_file self (url source) output_path (name source);
      fdic_loop self keys' (if negb ok then false else success)
  end.

Definition download_fdic_failed_banks (self : FFIECDownloader) : M bool :=
  log self (string_repeat "=" 60);;
  log self "Downloading FDIC Failed Banks Data";;
  log self (string_repeat "=" 60);;
  fdic_loop self ["fdic_failed_banks"; "fdic_failed_banks_legacy"] true.

(** Returns the decoded document; Python's [None] is [JNull]. *)
Definition download_fdic_api_data (self : FFIECDownloader) (endpoint : string)
    (limit : Z) : M json :=
  let url := FDIC_API_BASE +:+ endpoint in
  let params := [("limit", pretty limit); ("format", "json")] in
  try_except
    (log self ("Fetching from FDIC API: " +:+ endpoint);;
     response ← get {| req_url := url; req_headers := session_headers;
                       req_params := params; req_stream := false;
                       req_timeout := 60 |};
     raise_for_status response;;
     match json_loads E (concat (body response)) with
     | Some j => mret j
     | None => raise (RequestException JSONDecodeError)
     end)
    is_RequestException
    (λ e,
     log self ("  ERROR: API request failed: " +:+ exn_text e);;
     mret JNull).

Definition _json_to_csv (self : FFIECDownloader) (records : json)
    (output_path : path) : M unit :=
  if negb (truthy records) then mret tt
  else
    first ← py_first records;
    headers ← py_keys first;
    open_w output_path;;
    put_content output_path (CsvDoc headers []);;
    writerows output_path headers (py_iter records);;
    log self ("  Saved CSV: " +:+ show_path output_path).

Definition download_fdic_failures_api (self : FFIECDownloader) : M bool :=
  log self "Downloading FDIC Failures via API...";;
  data ← download_fdic_api_data self "/failures" 10000;
  if truthy data then
    let output_path :=
      path_div (path_div (output_dir self) "fdic") "fdic_failures_api.json" in
    open_w output_path;;
    put_content output_path (JsonDoc data);;
    log self ("  Saved API data to: " +:+ show_path output_path);;
    has_data ← py_in "data" data;
    (if has_data : bool then
       records ← py_getitem data "data";
       _json_to_csv self records
         (path_div (path_div (output_dir self) "fdic") "fdic_failures_api.csv")
     else mret tt);;
    mret true
  else mret false.

(** *** NIC downloads *)

Definition nic_sources : list string :=
  filter (λ k, String.prefix "nic_" k = true) (map fst DATA_SOURCES).

Definition path_stem (p : path) : string := stem (default "" (last p)).

Fixpoint nic_loop (self : FFIECDownloader) (keys : list string)
    (success : bool) : M bool :=
  match keys with
  | [] => mret success
  | key :: keys' =>
      source ← getitem DATA_SOURCES key;
      let output_path :=
        path_div (path_div (output_dir self) "nic") (filename source) in
      ok ← download_file self (url source) output_path (name source);
      (if ok : bool then
         if String.eqb (format source) "zip" then
           let extract_dir :=
             path_div (path_div (output_dir self) "nic")
                      (path_stem (path_of_string (filename source))) in
           mkdir extract_dir false true;;
           extract_zip self output_path extract_dir;;
           mret success
         else mret success
       else mret false) ≫= nic_loop self keys'
  end.

Definition download_nic_data (self : FFIECDownloader) : M bool :=
  log self (string_repeat "=" 60);;
  log self "Downloading FFIEC NIC Bulk Data";;
  log self (string_repeat "=" 60);;
  nic_loop self nic_sources true.
(** The static text of [download_chicago_fed_data], line by line. *)
Definition chicago_fed_instructions : string :=
  String.concat nl [
    "# Chicago Fed Commercial Bank Data (1976-2000)";
    "";
    "## Overview";
    "Historical call report data from the Federal Reserve Bank of Chicago.";
    "Data is available quarterly from 1976 to 2000.";
    "";
    "## Format";
    "Files are in SAS XPORT format (.xpt)";
    "";
    "## How to Download";
    "1. Visit: https://www.chicagofed.org/banking/financial-institution-reports/commercial-bank-data-complete-1976-2000";
    "2. Select the year and quarter you need";
    "3. Download the compressed zip file containing SAS XPORT files";
    "";
    "## How to Read in Python";
    "```python";
    "import pyreadstat";
    "";
    "# Read SAS XPORT file";
    "df, meta = pyreadstat.read_xport('call_report_1990q4.xpt')";
    "";
    "# View column labels";
    "print(meta.column_names_to_labels)";
    "```";
    "";
    "## How to Read in R";
    "```r";
    "library(haven)";
    ("df <- read_xpt(" +:+ dq +:+ "call_report_1990q4.xpt" +:+ dq +:+ ")");
    "```";
    "";
    "## Available Years";
    "1976, 1977, 1978, 1979, 1980, 1981, 1982, 1983, 1984, 1985,";
    "1986, 1987, 1988, 1989, 1990, 1991, 1992, 1993, 1994, 1995,";
    "1996, 1997, 1998, 1999, 2000";
    "";
    "## Quarters";
    "- Q1: March 31 (0331)";
    "- Q2: June 30 (0630)";
    "- Q3: September 30 (0930)";
    "- Q4: December 31 (1231)";
    "";
    "## Alternative: FFIEC CDR for 2001+";
    "For data from 2001 onwards, use the FFIEC CDR:";
    "https://cdr.ffiec.gov/public/pws/downloadbulkdata.aspx";
    ""
  ].

(** The static text of [download_cdr_info], line by line. *)
Definition cdr_instructions : string :=
  String.concat nl [
    "# FFIEC Central Data Repository (CDR) Bulk Downloads";
    "";
    "## Overview";
    "The FFIEC CDR provides bulk downloads of Call Report data (FFIEC 031, 041, 051).";
    "";
    "## Important Note";
    "**Direct URL downloads are NOT possible** for CDR bulk data.";
    "The website requires JavaScript interaction and session cookies.";
    "";
    "## How to Download Manually";
    "1. Visit: https://cdr.ffiec.gov/public/pws/downloadbulkdata.aspx";
    ("2. Select the report type (e.g., " +:+ dq +:+ "Call Reports - Single Period" +:+ dq +:+ ")");
    "3. Select the time period";
    "4. Select the format (CSV recommended)";
    "5. Click Download";
    "";
    "## Available Data Types";
    "1. **Balance Sheet, Income Statement, Past Due** (Schedules RC, RI, RC-N)";
    "   - Tab delimited format";
    "   - All filers for selected year(s)";
    "";
    "2. **Call Reports - Single Period**";
    "   - All filers for a single quarter";
    "   - XBRL or CSV format";
    "";
    "## Programmatic Access Options";
    "";
    "### Option 1: FFIEC Webservice (SOAP API)";
    "```python";
    "pip install ffiec-data-connect";
    "";
    "from ffiec_data_connect import methods, credentials";
    "";
    ("creds = credentials.WebserviceCredentials(username=" +:+ dq +:+ "user" +:+ dq +:+ ", password=" +:+ dq +:+ "pass" +:+ dq +:+ ")");
    "# Note: Requires FFIEC webservice account registration";
    "```";
    "";
    "### Option 2: Docker-based Data Collector";
    "See: https://github.com/call-report/data-collector";
    "";
    "### Option 3: Selenium Automation";
    "```python";
    "from selenium import webdriver";
    "from selenium.webdriver.common.by import By";
    "";
    "driver = webdriver.Chrome()";
    ("driver.get(" +:+ dq +:+ "https://cdr.ffiec.gov/public/pws/downloadbulkdata.aspx" +:+ dq +:+ ")");
    "# ... navigate and download";
    "```";
    "";
    "## Data Coverage";
    "- 2001 - Present (quarterly)";
    "- All FDIC-insured commercial banks";
    "- Schedules: RC, RC-A through RC-V, RI, RI-A through RI-E";
    "";
    "## Related Resources";
    "- CDR Help: https://cdr.ffiec.gov/public/HelpFiles/DownloadHelp.htm";
    "- Taxonomy: https://cdr.ffiec.gov/public/DownloadTaxonomy.aspx";
    ""
  ].

(** *** Chicago Fed and CDR instructions *)

Definition download_chicago_fed_data (self : FFIECDownloader) : M bool :=
  log self (string_repeat "=" 60);;
  log self "Downloading Chicago Fed Historical Data (1976-2000)";;
  log self (string_repeat "=" 60);;
  log self "NOTE: Chicago Fed historical data (1976-2000) is in SAS XPORT format.";;
  log self "      Direct download URLs are not available - visit:";;
  log self "      https://www.chicagofed.org/banking/financial-institution-reports/commercial-bank-data";;
  log self "";;
  log self "To read SAS XPORT files in Python, use:";;
  log self "  pip install pyreadstat";;
  log self "  import pyreadstat";;
  log self "  df, meta = pyreadstat.read_xport('filename.xpt')";;
  let instructions_path :=
    path_div (path_div (output_dir self) "chicago_fed")
             "DOWNLOAD_INSTRUCTIONS.md" in
  open_w instructions_path;;
  put_content instructions_path (Text chicago_fed_instructions);;
  log self ("  Saved instructions to: " +:+ show_path instructions_path);;
  mret true.

Definition download_cdr_info (self : FFIECDownloader) : M bool :=
  log self (string_repeat "=" 60);;
  log self "FFIEC CDR Bulk Download Information";;
  log self (string_repeat "=" 60);;
  let instructions_path :=
    path_div (path_div (output_dir self) "metadata")
             "FFIEC_CDR_INSTRUCTIONS.md" in
  open_w instructions_path;;
  put_content instructions_path (Text cdr_instructions);;
  log self ("  Saved CDR instructions to: " +:+ show_path instructions_path);;
  mret true.

(** *** The full run *)

Definition manifest_of (self : FFIECDownloader)
    (results : list (string * bool)) : json :=
  JObj [
    ("download_date", JStr (now_iso E));
    ("output_directory", JStr (show_path (output_dir self)));
    ("results", JObj (map (λ kv, (fst kv, JBool (snd kv))) results));
    ("data_sources",
     JObj (map (λ kv, (fst kv, JStr (description (snd kv)))) DATA_SOURCES))
  ].

Definition manifest_path (self : FFIECDownloader) : path :=
  path_div (path_div (output_dir self) "metadata") "download_manifest.json".

Definition _save_manifest (self : FFIECDownloader)
    (results : list (string * bool)) : M unit :=
  let manifest := manifest_of self results in
  open_w (manifest_path self);;
  put_content (manifest_path self) (JsonDoc manifest);;
  log self ("Saved manifest to: " +:+ show_path (manifest_path self)).

Definition download_all (self : FFIECDownloader) : M (list (string * bool)) :=
  let results := [] in
  r ← download_fdic_failed_banks self;
  let results := dict_set results "fdic_failed_banks" r in
  r ← download_fdic_failures_api self;
  let results := dict_set results "fdic_api" r in
  r ← download_nic_data self;
  let results := dict_set results "nic_data" r in
  r ← download_chicago_fed_data self;
  let results := dict_set results "chicago_fed_info" r in
  r ← download_cdr_info self;
  let results := dict_set results "cdr_info" r in
  _save_manifest self results;;
  mret results.

(** The lines [list_sources] prints for the sources whose key starts with
    [pre]. *)
Fixpoint print_sources (pre : string) (items : list (string * source))
    : M unit :=
  match items with
  | [] => mret tt
  | (key, source) :: items' =>
      (if String.prefix pre key then
         print ("  • " +:+ name source);;
         print ("    " +:+ description source);;
         print ("    URL: " +:+ url source);;
         print ""
       else mret tt);;
      print_sources pre items'
  end.

Definition list_sources (self : FFIECDownloader) : M unit :=
  print (nl +:+ string_repeat "=" 70);;
  print "AVAILABLE DATA SOURCES";;
  print (string_repeat "=" 70);;
  print (nl +:+ "[FDIC - Federal Deposit Insurance Corporation]");;
  print_sources "fdic" DATA_SOURCES;;
  print (nl +:+ "[NIC - National Information Center]");;
  print_sources "nic" DATA_SOURCES;;
  print (nl +:+ "[Chicago Fed - Historical Data]");;
  print "  • Commercial Bank Data (1976-2000)";;
  print "    Quarterly call report data in SAS XPORT format";;
  print "    URL: https://www.chicagofed.org/banking/financial-institution-reports/commercial-bank-data";;
  print "";;
  print (nl +:+ "[FFIEC CDR - Central Data Repository]");;
  print "  • Call Reports Bulk Download (2001-present)";;
  print "    Requires browser interaction - no direct download URL";;
  print "    URL: https://cdr.ffiec.gov/public/pws/downloadbulkdata.aspx";;
  print "".

(** ** The command line *)

(** The namespace [parser.parse_args()] returns. *)
Record args := {
  arg_all : bool;
  arg_fdic : bool;
  arg_nic : bool;
  arg_chicago_fed : bool;
  arg_cdr : bool;
  arg_list : bool;
  arg_output_dir : string;
  arg_quiet : bool }.

Fixpoint print_summary (results : list (string * bool)) : M unit :=
  match results with
  | [] => mret tt
  | (source, success) :: results' =>
      let status := if success then "✓ Success" else "✗ Failed" in
      print ("  " +:+ source +:+ ": " +:+ status);;
      print_summary results'
  end.

Definition main (a : args) : M unit :=
  downloader ← init (path_of_string (arg_output_dir a)) (negb (arg_quiet a));
  if arg_list a then list_sources downloader
  else if arg_all a then
    results ← download_all downloader;
    print (nl +:+ string_repeat "=" 50);;
    print "DOWNLOAD SUMMARY";;
    print (string_repeat "=" 50);;
    print_summary results
  else
    (if arg_fdic a then
       download_fdic_failed_banks downloader;;
       download_fdic_failures_api downloader;;
       mret tt
     else mret tt);;
    (if arg_nic a then download_nic_data downloader;; mret tt else mret tt);;
    (if arg_chicago_fed a
     then download_chicago_fed_data downloader;; mret tt else mret tt);;
    (if arg_cdr a then download_cdr_info downloader;; mret tt else mret tt);;
    if negb (arg_all a || arg_fdic a || arg_nic a || arg_chicago_fed a
             || arg_cdr a)
    then emit Help
    else mret tt.

End Downloader.

(** * Notions used in the statements *)

(** A relation between the world before and the world after that every run
    of a computation keeps, however it ends. *)
Definition preserves (R : relation world) {A} (m : M A) : Prop :=
  ∀ w, R w (snd (m w)).

(** A write keeps the kind of a node. *)
Definition keeps_kind (g : node → node) : Prop :=
  g Dir = Dir ∧ ∀ c, ∃ c', g (File c) = File c'.

(** Nothing is ever removed: a directory stays a directory and a file stays
    a file (its content may change). *)
Definition same_kind (n n' : node) : Prop :=
  match n with
  | Dir => n' = Dir
  | File _ => ∃ c, n' = File c
  end.

Definition fs_le (w w' : world) : Prop :=
  ∀ p n, fs w !! p = Some n → ∃ n', fs w' !! p = Some n' ∧ same_kind n n'.

(** No request is sent. *)
Definition same_reqs (w w' : world) : Prop := reqs w' = reqs w.

(** No request is sent and the only change of the filesystem is that
    directories appear where there was nothing, at paths that [allowed]
    admits. *)
Definition dirs_in (allowed : path → Prop) (w w' : world) : Prop :=
  reqs w' = reqs w ∧
  ∀ p, fs w' !! p = fs w !! p ∨
       (allowed p ∧ fs w !! p = None ∧ fs w' !! p = Some Dir).

Definition dirs_only : relation world := dirs_in (λ _, True).

(** The directories [__init__] makes sure of: the output directory with its
    ancestors, and its four subdirectories. *)
Definition made_by_init (out_dir q : path) : Prop :=
  q ≠ [] ∧
  (q `prefix_of` out_dir ∨
   q ∈ path_div out_dir <$> ["fdic"; "nic"; "chicago_fed"; "metadata"]).

Definition throws {A} (P : exn → Prop) (m : M A) : Prop :=
  ∀ w e w', m w = (Raise e, w') → P e.

Definition os_exn (e : exn) : Prop := is_OSError e = true.

(** Neither a transport failure nor a corrupt archive. *)
Definition local_exn (e : exn) : Prop :=
  is_RequestException e = false ∧ is_BadZipFile e = false.

Definition not_zip (e : exn) : Prop := is_BadZipFile e = false.
Definition not_req (e : exn) : Prop := is_RequestException e = false.

(** The error [open(p, 'w')] meets in the filesystem [f], if any. *)
Definition open_error (f : gmap path node) (p : path) : option exn :=
  match lookup_node f p with
  | Some Dir => Some (OSError IsADirectoryError p)
  | _ =>
      match lookup_node f (parent p) with
      | Some Dir => None
      | Some (File _) => Some (OSError NotADirectoryError p)
      | None => Some (OSError FileNotFoundError p)
      end
  end.

(** The request [download_file] sends for a URL. *)
Definition file_request (url : string) : request :=
  {| req_url := url; req_headers := session_headers; req_params := [];
     req_stream := true; req_timeout := 120 |}.

(** A 4xx or 5xx status, the ones [raise_for_status] raises for. *)
Definition error_status (r : http_response) : bool :=
  (400 <=? status_code r) && (status_code r <? 600).

(** The transfer fails before any byte of the body is read: no response
    (time-out, connection error) or an error status. *)
Definition refused (r : reply) : bool :=
  match r with
  | NoResponse _ => true
  | Response r => error_status r
  end.

(** The body of an accepted response breaks off. *)
Definition interrupted (r : reply) : bool :=
  match r with
  | NoResponse _ => false
  | Response r =>
      negb (error_status r) &&
      match body_error r with Some _ => true | None => false end
  end.

Definition transport_failure (r : reply) : bool := refused r || interrupted r.

Definition transfer_ok (r : reply) : bool := negb (transport_failure r).

(** A status outside 200..299. *)
Definition non_2xx (r : http_response) : bool :=
  negb ((200 <=? status_code r) && (status_code r <? 300)).

(** A member that [zipfile] reads without complaint. *)
Definition sound (m : zip_member) : bool :=
  match zm_state m with Sound => true | _ => false end.

(** ** Small worlds and environments to run the script in *)

Definition empty_world : world := {| fs := ∅; out := []; reqs := [] |}.

(** Every request times out. *)
Definition offline : env :=
  {| session_get := λ _, NoResponse Timeout;
     zip_open := λ _, None;
     json_loads := λ _, None;
     now_iso := "2025-11-01T12:00:00" |}.

(** Every request is answered by [r]. *)
Definition answering (r : http_response) : env :=
  {| session_get := λ _, Response r;
     zip_open := λ _, None;
     json_loads := λ _, None;
     now_iso := "2025-11-01T12:00:00" |}.

(** 304 Not Modified, with no body. *)
Definition not_modified : http_response :=
  {| status_code := 304; content_length := None; body := [];
     body_error := None |}.

(** 200 OK whose body breaks off after one chunk. *)
Definition cut_short : http_response :=
  {| status_code := 200; content_length := Some (Some 4096);
     body := [["a"; "b"; "c"]%byte];
     body_error := Some ChunkedEncodingError |}.

Definition quiet_downloader (out_dir : path) : FFIECDownloader :=
  {| output_dir := out_dir; verbose := false |}.

(** A readable archive of two files, one in a folder, and its bytes. *)
Definition two_files : list zip_member :=
  [ {| zm_filename := "ATTRIBUTES.CSV"; zm_data := ["1"; "2"]%byte;
       zm_state := Sound |};
    {| zm_filename := "doc/README.txt"; zm_data := ["h"; "i"]%byte;
       zm_state := Sound |} ].

Definition zip_bytes : bytes := ["P"; "K"]%byte.

(** [zipfile] reads [zip_bytes] as [two_files] and nothing else as an
    archive. *)
Definition unzip (b : bytes) : option (list zip_member) :=
  match b with
  | [x; y] =>
      if Byte.eqb x "P"%byte && Byte.eqb y "K"%byte
      then Some two_files else None
  | _ => None
  end.

(** A world whose only file is the archive [a.zip], in the root. *)
Definition archive_world (b : bytes) : world :=
  {| fs := {[ ["a.zip"] := File (Raw b) ]}; out := []; reqs := [] |}.

Definition unzipping : env :=
  {| session_get := λ _, NoResponse Timeout;
     zip_open := unzip;
     json_loads := λ _, None;
     now_iso := "2025-11-01T12:00:00" |}.

(** The entry of the catalog under a key. *)
Definition empty_source : source :=
  {| name := ""; description := ""; url := ""; format := "";
     direct_download := false; filename := "" |}.

Definition catalog (key : string) : source :=
  default empty_source (dict_get DATA_SOURCES key).

(** Where [download_fdic_failed_banks] and [download_nic_data] put the file
    of a source. *)
Definition fdic_path (self : FFIECDownloader) (key : string) : path :=
  path_div (path_div (output_dir self) "fdic") (filename (catalog key)).

Definition nic_path (self : FFIECDownloader) (key : string) : path :=
  path_div (path_div (output_dir self) "nic") (filename (catalog key)).

(** The request for the file of a source, and whether its transfer goes
    through. *)
Definition source_request (key : string) : request :=
  file_request (url (catalog key)).

Definition source_ok (E : env) (key : string) : bool :=
  transfer_ok (session_get E (source_request key)).

(** The first mirror of the failed-bank list answers, the second does not. *)
Definition one_mirror : env :=
  {| session_get := λ req,
       if String.eqb (req_url req)
            "https://www.fdic.gov/bank-failures/download-data.csv"
       then Response {| status_code := 200; content_length := None;
                        body := [["o"; "k"]%byte]; body_error := None |}
       else NoResponse ConnectionError;
     zip_open := λ _, None;
     json_loads := λ _, None;
     now_iso := "2025-11-01T12:00:00" |}.

(** The world after [__init__] made its directories under [out]. *)
Definition ready_world : world :=
  {| fs := {[ ["out"] := Dir; ["out"; "fdic"] := Dir; ["out"; "nic"] := Dir;
              ["out"; "chicago_fed"] := Dir; ["out"; "metadata"] := Dir ]};
     out := []; reqs := [] |}.

(** The keys of the result map of a full run. *)
Definition step_keys : list string :=
  ["fdic_failed_banks"; "fdic_api"; "nic_data"; "chicago_fed_info";
   "cdr_info"].

(** A complete 200 answer with a two-byte body. *)
Definition fine : http_response :=
  {| status_code := 200; content_length := None; body := [["o"; "k"]%byte];
     body_error := None |}.

(** An environment in which the two mirrors of the failed-bank list answer
    iff [fdic_up], the FDIC API iff [api_up], and the NIC files iff
    [nic_up]; the API document is an object with an empty record list and
    no NIC file is a readable archive. *)
Definition outcomes (fdic_up api_up nic_up : bool) : env :=
  {| session_get := λ req,
       let up :=
         if String.prefix "https://www.fdic.gov/" (req_url req) then fdic_up
         else if String.prefix FDIC_API_BASE (req_url req) then api_up
         else nic_up in
       if up then Response fine else NoResponse Timeout;
     zip_open := λ _, None;
     json_loads := λ _, Some (JObj [("data", JArr [])]);
     now_iso := "2025-11-01T12:00:00" |}.

(** The request [download_fdic_api_data] sends. *)
Definition api_request (endpoint : string) (limit : Z) : request :=
  {| req_url := FDIC_API_BASE +:+ endpoint; req_headers := session_headers;
     req_params := [("limit", pretty limit); ("format", "json")];
     req_stream := false; req_timeout := 60 |}.

(** What [download_fdic_api_data] returns: the decoded document of a
    complete answer without error status, and [None] otherwise. *)
Definition api_document (E : env) (endpoint : string) (limit : Z) : json :=
  match session_get E (api_request endpoint limit) with
  | NoResponse _ => JNull
  | Response r =>
      match body_error r with
      | Some _ => JNull
      | None =>
          if error_status r then JNull
          else default JNull (json_loads E (concat (body r)))
      end
  end.

(** The two files of the API step. *)
Definition api_json_path (self : FFIECDownloader) : path :=
  path_div (path_div (output_dir self) "fdic") "fdic_failures_api.json".

Definition api_csv_path (self : FFIECDownloader) : path :=
  path_div (path_div (output_dir self) "fdic") "fdic_failures_api.csv".

(** A record [DictWriter] accepts under the given field names: an object
    with no other keys. *)
Definition record_ok (fieldnames : list string) (row : json) : bool :=
  match row with
  | JObj fields =>
      forallb (λ k, existsb (String.eqb k) fieldnames) (map fst fields)
  | _ => false
  end.

(** The records of a document, when it has a non-empty list of them. *)
Definition records_of (data : json) : option (list json) :=
  match data with
  | JObj fields =>
      match dict_get fields "data" with
      | Some (JArr (first :: rest)) => Some (first :: rest)
      | _ => None
      end
  | _ => None
  end.

(** A document without records: an object with no ["data"] member or with
    an empty (falsy) one. *)
Definition no_records (data : json) : bool :=
  match data with
  | JObj fields =>
      match dict_get fields "data" with
      | Some records => negb (truthy records)
      | None => true
      end
  | _ => false
  end.

(** The API answers with [doc]; everything else times out. *)
Definition api_answers (doc : json) : env :=
  {| session_get := λ req,
       if String.prefix FDIC_API_BASE (req_url req)
       then Response fine else NoResponse Timeout;
     zip_open := λ _, None;
     json_loads := λ _, Some doc;
     now_iso := "2025-11-01T12:00:00" |}.

Definition two_records : json :=
  JObj [("meta", JObj [("total", JInt 2)]);
        ("data", JArr [JObj [("NAME", JStr "First Bank"); ("CERT", JInt 1)];
                       JObj [("CERT", JInt 2)]])].

(** The node at [q] is left as it was. *)
Definition keeps (q : path) (w w' : world) : Prop := fs w' !! q = fs w !! q.

(** The second half of [download_fdic_failures_api], after the JSON
    document was saved. *)
Definition csv_part (self : FFIECDownloader) (data : json) : M bool :=
  has_data ← py_in "data" data;
  (if has_data : bool then
     records ← py_getitem data "data";
     _json_to_csv self records (api_csv_path self)
   else mret tt);;
  mret true.

(** [--list] alone, with the default output directory. *)
Definition list_only : args :=
  {| arg_all := false; arg_fdic := false; arg_nic := false;
     arg_chicago_fed := false; arg_cdr := false; arg_list := true;
     arg_output_dir := DEFAULT_OUTPUT_DIR; arg_quiet := false |}.

(** The directory [download_nic_data] extracts the archive of a source
    into: [nic/<stem of the file name>]. *)
Definition extract_dir (self : FFIECDownloader) (key : string) : path :=
  path_div (path_div (output_dir self) "nic")
           (path_stem (path_of_string (filename (catalog key)))).

(** There is a node at [p], a directory iff [dir]. *)
Definition present (f : gmap path node) (p : path) (dir : bool) : Prop :=
  match lookup_node f p with
  | Some Dir => dir = true
  | Some (File _) => dir = false
  | None => False
  end.

(** Every entry of the archive of a source is in its directory, when what
    was transferred is a readable archive with sound members. *)
Definition archive_extracted (E : env) (self : FFIECDownloader)
    (key : string) (f : gmap path node) : Prop :=
  ∀ r members,
    session_get E (source_request key) = Response r →
    zip_open E (concat (body r)) = Some members →
    forallb sound members = true →
    Forall (λ m, present f (member_target (extract_dir self key) m)
                   (member_is_dir m)) members.

(** The keys of the sources whose format is [zip]. *)
Definition zip_keys : list string :=
  filter (λ k, format (catalog k) = "zip") (map fst DATA_SOURCES).

(** The URLs of the archives. *)
Definition archive_urls : list string := (λ k, url (catalog k)) <$> zip_keys.

(** Every request is answered with the bytes of the archive [two_files]. *)
Definition serving_archives : env :=
  {| session_get := λ _,
       Response {| status_code := 200; content_length := Some (Some 2);
                   body := [zip_bytes]; body_error := None |};
     zip_open := unzip;
     json_loads := λ _, None;
     now_iso := "2025-11-01T12:00:00" |}.

(** Two worlds that differ in the printed output at most. *)
Definition sim (w1 w2 : world) : Prop := fs w1 = fs w2 ∧ reqs w1 = reqs w2.

(** Two computations that, from such worlds, end the same way (the same
    value or the same exception) and again in such worlds. *)
Definition alike {A} (m1 m2 : M A) : Prop :=
  ∀ w1 w2, sim w1 w2 →
    fst (m1 w1) = fst (m2 w2) ∧ sim (snd (m1 w1)) (snd (m2 w2)).

(** The downloader for an output directory and a verbosity. *)
Definition downloader (out_dir : path) (verb : bool) : FFIECDownloader :=
  {| output_dir := out_dir; verbose := verb |}.

(** The arguments [a] with [--quiet] set or not. *)
Definition with_quiet (q : bool) (a : args) : args :=
  {| arg_all := arg_all a; arg_fdic := arg_fdic a; arg_nic := arg_nic a;
     arg_chicago_fed := arg_chicago_fed a; arg_cdr := arg_cdr a;
     arg_list := arg_list a; arg_output_dir := arg_output_dir a;
     arg_quiet := q |}.

(* end of notions *)

(** * Reasoning about runs *)

(** ** Basic equations of the monad *)

Lemma bind_run {A B} (m : M A) (k : A → M B) (w : world) :
  (m ≫= k) w =
  match m w with
  | (Ok a, w') => k a w'
  | (Raise e, w') => (Raise e, w')
  end.
Proof. reflexivity. Qed.

Lemma bind_ok_inv {A B} (m : M A) (k : A → M B) w b w' :
  (m ≫= k) w = (Ok b, w') →
  ∃ a w1, m w = (Ok a, w1) ∧ k a w1 = (Ok b, w').
Proof.
  rewrite bind_run. destruct (m w) as [[a|e] w1]; [eauto | discriminate].
Qed.

Lemma bind_raise_inv {A B} (m : M A) (k : A → M B) w e w' :
  (m ≫= k) w = (Raise e, w') →
  m w = (Raise e, w') ∨ ∃ a w1, m w = (Ok a, w1) ∧ k a w1 = (Raise e, w').
Proof.
  rewrite bind_run. destruct (m w) as [[a|e1] w1]; intros H.
  - right. eauto.
  - left. by simplify_eq.
Qed.

Lemma try_except_run {A} (body : M A) handled handler (w : world) :
  try_except body handled handler w =
  match body w with
  | (Ok a, w') => (Ok a, w')
  | (Raise e, w') => if handled e then handler e w' else (Raise e, w')
  end.
Proof. reflexivity. Qed.

(** ** State relations kept by every step of a computation *)

Section Preserves.

Context (R : relation world) {HR : PreOrder R}.

Lemma preserves_run {A} (m : M A) w o w' :
  preserves R m → m w = (o, w') → R w w'.
Proof using Type. intros Hm Hrun. specialize (Hm w). by rewrite Hrun in Hm. Qed.

Lemma preserves_ret {A} (a : A) : preserves R (mret a).
Proof. intros w. reflexivity. Qed.

Lemma preserves_raise {A} (e : exn) : preserves R (@raise A e).
Proof. intros w. reflexivity. Qed.

Lemma preserves_get_fs : preserves R get_fs.
Proof. intros w. reflexivity. Qed.

Lemma preserves_bind {A B} (m : M A) (k : A → M B) :
  preserves R m → (∀ a, preserves R (k a)) → preserves R (m ≫= k).
Proof.
  intros Hm Hk w. rewrite bind_run. specialize (Hm w).
  destruct (m w) as [[a|e] w1]; simpl in *; [|done].
  etrans; [exact Hm | apply Hk].
Qed.

Lemma preserves_try_except {A} (body : M A) handled handler :
  preserves R body → (∀ e, preserves R (handler e)) →
  preserves R (try_except body handled handler).
Proof.
  intros Hm Hk w. rewrite try_except_run. specialize (Hm w).
  destruct (body w) as [[a|e] w1]; simpl in *; [done|].
  destruct (handled e); [|done].
  etrans; [exact Hm | apply Hk].
Qed.

End Preserves.

Lemma set_content_keeps_kind c : keeps_kind (set_content c).
Proof. split; [done | intros c0; by exists c]. Qed.

Lemma append_raw_keeps_kind chunk : keeps_kind (append_raw chunk).
Proof. split; [done | intros [b| | |]; simpl; eauto]. Qed.

Lemma append_row_keeps_kind r : keeps_kind (append_row r).
Proof. split; [done | intros [| | |h rows]; simpl; eauto]. Qed.

Ltac pres_step :=
  lazymatch goal with
  | |- preserves _ (mret _) => apply preserves_ret
  | |- preserves _ (raise _) => apply preserves_raise
  | |- preserves _ get_fs => apply preserves_get_fs
  | |- preserves _ (mbind _ _) => apply preserves_bind; [..|intros ?]
  | |- preserves _ (try_except _ _ _) =>
      apply preserves_try_except; [..|intros ?]
  | |- preserves _ (if ?b then _ else _) => destruct b
  | |- preserves _ (match ?x with _ => _ end) => destruct x
  | |- PreOrder _ => first [assumption | apply _]
  | |- preserves _ (emit _) =>
      match goal with H : ∀ ev, preserves _ (emit ev) |- _ => apply H end
  | |- preserves _ (os_mkdir _) =>
      match goal with H : ∀ p, preserves _ (os_mkdir p) |- _ => apply H end
  | |- preserves _ (open_w _) =>
      match goal with H : ∀ p, preserves _ (open_w p) |- _ => apply H end
  | |- preserves _ (get _ _) =>
      match goal with H : ∀ r, preserves _ (get _ r) |- _ => apply H end
  | |- preserves _ ?m =>
      first
        [ match goal with H : preserves _ m |- _ => exact H end
        | match m with
          | ?f _ =>
              match goal with H : ∀ x, preserves _ (f x) |- _ => apply H end
          end ]
  end.

Ltac pres := cbv zeta; repeat pres_step.

(** The operations of the script keep every relation that its primitive
    steps keep. *)
Section PreservesOps.

Context (R : relation world) {HR : PreOrder R} (E : env).

Hypothesis R_emit : ∀ ev, preserves R (emit ev).
Hypothesis R_os_mkdir : ∀ p, preserves R (os_mkdir p).
Hypothesis R_open_w : ∀ p, preserves R (open_w p).
Hypothesis R_alter : ∀ g p, keeps_kind g → preserves R (alter_node g p).
Hypothesis R_get : ∀ req, preserves R (get E req).

Lemma preserves_log self msg : preserves R (log self msg).
Proof using R_emit HR. unfold log. pres. Qed.

Lemma preserves_print line : preserves R (print line).
Proof using R_emit. apply R_emit. Qed.

Lemma preserves_put_content p c : preserves R (put_content p c).
Proof using R_alter. apply R_alter, set_content_keeps_kind. Qed.

Lemma preserves_write_bytes p chunk : preserves R (write_bytes p chunk).
Proof using R_alter. apply R_alter, append_raw_keeps_kind. Qed.

Lemma preserves_mkdir_flat p exist_ok : preserves R (mkdir_flat p exist_ok).
Proof using R_os_mkdir HR. unfold mkdir_flat. pres. Qed.

Lemma preserves_mkdir_rev rp parents exist_ok :
  preserves R (mkdir_rev rp parents exist_ok).
Proof using R_os_mkdir HR.
  revert parents exist_ok.
  induction rp as [|c rp IH]; intros; simpl; pres;
    auto using preserves_mkdir_flat.
Qed.

Lemma preserves_mkdir p parents exist_ok :
  preserves R (mkdir p parents exist_ok).
Proof using R_os_mkdir HR. apply preserves_mkdir_rev. Qed.

Lemma preserves_makedirs_rev rp : preserves R (makedirs_rev rp).
Proof using R_os_mkdir HR. induction rp as [|c rp IH]; simpl; pres. Qed.

Lemma preserves_makedirs p : preserves R (makedirs p).
Proof using R_os_mkdir HR. apply preserves_makedirs_rev. Qed.

Lemma preserves_init out_dir verb : preserves R (init out_dir verb).
Proof using R_os_mkdir HR. unfold init. pres; auto using preserves_mkdir. Qed.

Lemma preserves_write_chunks self p total chunks downloaded :
  preserves R (write_chunks self p total chunks downloaded).
Proof using R_emit R_alter HR.
  revert downloaded. induction chunks as [|chunk chunks IH]; intros; simpl.
  - pres.
  - destruct chunk as [|b chunk]; [apply IH|].
    pres; auto using preserves_write_bytes.
Qed.

Lemma preserves_download_file self url p description :
  preserves R (download_file E self url p description).
Proof using R_emit R_alter R_open_w R_get HR.
  unfold download_file, raise_for_status, int_content_length.
  pres; auto using preserves_log, preserves_write_chunks, preserves_print.
Qed.

Lemma preserves_extract_member targetpath m :
  preserves R (extract_member targetpath m).
Proof using R_alter R_open_w R_os_mkdir HR.
  unfold extract_member.
  pres; auto using preserves_makedirs, preserves_write_bytes.
Qed.

Lemma preserves_extractall members targetpath :
  preserves R (extractall members targetpath).
Proof using R_alter R_open_w R_os_mkdir HR.
  induction members as [|m members IH]; simpl; pres;
    auto using preserves_extract_member.
Qed.

Lemma preserves_ZipFile p : preserves R (ZipFile E p).
Proof using HR. unfold ZipFile, read_file. pres. Qed.

Lemma preserves_extract_zip self zip_path extract_dir :
  preserves R (extract_zip E self zip_path extract_dir).
Proof using R_emit R_alter R_open_w R_os_mkdir HR.
  unfold extract_zip.
  pres; auto using preserves_ZipFile, preserves_extractall, preserves_log.
Qed.

Lemma preserves_getitem {V} (d : list (string * V)) key :
  preserves R (getitem d key).
Proof using HR. unfold getitem. pres. Qed.

Lemma preserves_fdic_loop self keys success :
  preserves R (fdic_loop E self keys success).
Proof using R_emit R_alter R_open_w R_get HR.
  revert success. induction keys as [|key keys IH]; intros; simpl; pres;
    auto using preserves_getitem, preserves_download_file.
Qed.

Lemma preserves_download_fdic_failed_banks self :
  preserves R (download_fdic_failed_banks E self).
Proof using R_emit R_alter R_open_w R_get HR.
  unfold download_fdic_failed_banks.
  pres; auto using preserves_log, preserves_fdic_loop.
Qed.

Lemma preserves_download_fdic_api_data self endpoint limit :
  preserves R (download_fdic_api_data E self endpoint limit).
Proof using R_emit R_get HR.
  unfold download_fdic_api_data, raise_for_status.
  pres; auto using preserves_log.
Qed.

Lemma preserves_dict_to_list fieldnames row :
  preserves R (dict_to_list fieldnames row).
Proof using HR. unfold dict_to_list, py_keys. pres. Qed.

Lemma preserves_writerows p fieldnames rows :
  preserves R (writerows p fieldnames rows).
Proof using R_alter HR.
  induction rows as [|row rows IH]; simpl; pres;
    auto using preserves_dict_to_list, append_row_keeps_kind.
Qed.

Lemma preserves__json_to_csv self records p :
  preserves R (_json_to_csv self records p).
Proof using R_emit R_alter R_open_w HR.
  unfold _json_to_csv, py_first, py_keys.
  pres; auto using preserves_put_content, preserves_writerows, preserves_log.
Qed.

Lemma preserves_download_fdic_failures_api self :
  preserves R (download_fdic_failures_api E self).
Proof using R_emit R_alter R_open_w R_get HR.
  unfold download_fdic_failures_api, py_in, py_getitem.
  pres; auto using preserves_log, preserves_download_fdic_api_data,
    preserves_put_content, preserves__json_to_csv, preserves_getitem.
Qed.

Lemma preserves_nic_loop self keys success :
  preserves R (nic_loop E self keys success).
Proof using R_emit R_alter R_open_w R_os_mkdir R_get HR.
  revert success. induction keys as [|key keys IH]; intros; simpl; pres;
    auto using preserves_getitem, preserves_download_file, preserves_mkdir,
      preserves_extract_zip.
Qed.

Lemma preserves_download_nic_data self :
  preserves R (download_nic_data E self).
Proof using R_emit R_alter R_open_w R_os_mkdir R_get HR.
  unfold download_nic_data.
  pres; auto using preserves_log, preserves_nic_loop.
Qed.

Lemma preserves_download_chicago_fed_data self :
  preserves R (download_chicago_fed_data self).
Proof using R_emit R_alter R_open_w HR.
  unfold download_chicago_fed_data.
  pres; auto using preserves_log, preserves_put_content.
Qed.

Lemma preserves_download_cdr_info self :
  preserves R (download_cdr_info self).
Proof using R_emit R_alter R_open_w HR.
  unfold download_cdr_info.
  pres; auto using preserves_log, preserves_put_content.
Qed.

Lemma preserves__save_manifest self results :
  preserves R (_save_manifest E self results).
Proof using R_emit R_alter R_open_w HR.
  unfold _save_manifest.
  pres; auto using preserves_log, preserves_put_content.
Qed.

Lemma preserves_download_all self : preserves R (download_all E self).
Proof using R_emit R_alter R_open_w R_os_mkdir R_get HR.
  unfold download_all.
  pres; auto using preserves_download_fdic_failed_banks,
    preserves_download_fdic_failures_api, preserves_download_nic_data,
    preserves_download_chicago_fed_data, preserves_download_cdr_info,
    preserves__save_manifest.
Qed.

Lemma preserves_print_sources pre items :
  preserves R (print_sources pre items).
Proof using R_emit HR.
  induction items as [|[key source] items IH]; simpl; pres;
    auto using preserves_print.
Qed.

Lemma preserves_list_sources self : preserves R (list_sources self).
Proof using R_emit HR.
  unfold list_sources.
  pres; auto using preserves_print, preserves_print_sources.
Qed.

Lemma preserves_print_summary results : preserves R (print_summary results).
Proof using R_emit HR.
  induction results as [|[source success] results IH]; simpl; pres;
    auto using preserves_print.
Qed.

Lemma preserves_main a : preserves R (main E a).
Proof using R_emit R_alter R_open_w R_os_mkdir R_get HR.
  unfold main.
  pres; auto using preserves_init, preserves_list_sources,
    preserves_download_all, preserves_print, preserves_print_summary,
    preserves_download_fdic_failed_banks, preserves_download_fdic_failures_api,
    preserves_download_nic_data, preserves_download_chicago_fed_data,
    preserves_download_cdr_info.
Qed.

End PreservesOps.

(** ** Three relations between the world before and after *)

Lemma same_kind_refl n : same_kind n n.
Proof. destruct n; simpl; eauto. Qed.

Lemma same_kind_trans n1 n2 n3 :
  same_kind n1 n2 → same_kind n2 n3 → same_kind n1 n3.
Proof.
  destruct n1 as [|c1]; simpl.
  - intros ->. done.
  - intros [c2 ->]. done.
Qed.

Global Instance fs_le_preorder : PreOrder fs_le.
Proof.
  split.
  - intros w p n Hn. exists n. split; [done | apply same_kind_refl].
  - intros w1 w2 w3 H12 H23 p n Hn.
    destruct (H12 p n Hn) as (n2 & Hn2 & Hk2).
    destruct (H23 p n2 Hn2) as (n3 & Hn3 & Hk3).
    exists n3. split; [done | by eapply same_kind_trans].
Qed.

Global Instance same_reqs_preorder : PreOrder same_reqs.
Proof.
  split.
  - intros w. reflexivity.
  - intros w1 w2 w3 H12 H23. unfold same_reqs in *. congruence.
Qed.

Global Instance dirs_in_preorder allowed : PreOrder (dirs_in allowed).
Proof.
  split.
  - intros w. split; [done | by left].
  - intros w1 w2 w3 [Hr12 H12] [Hr23 H23]. split; [congruence|].
    intros p.
    destruct (H12 p) as [E12|(A1 & N1 & D2)], (H23 p) as [E23|(A2 & N2 & D3)].
    + left. congruence.
    + right. split_and!; [done|congruence..].
    + right. split_and!; [done|congruence..].
    + congruence.
Qed.

Global Instance dirs_only_preorder : PreOrder dirs_only.
Proof. apply dirs_in_preorder. Qed.

Lemma lookup_node_None f p : lookup_node f p = None → f !! p = None.
Proof. destruct p; [discriminate | done]. Qed.

Lemma lookup_node_Some_File f p c :
  lookup_node f p = Some (File c) → f !! p = Some (File c).
Proof. destruct p; [discriminate | done]. Qed.

Lemma lookup_node_not_Dir f p :
  lookup_node f p ≠ Some Dir → f !! p ≠ Some Dir.
Proof. destruct p; [done | done]. Qed.

(** The run of each primitive, case by case. *)
Lemma os_mkdir_run p w :
  os_mkdir p w =
  match lookup_node (fs w) p with
  | Some _ => (Raise (OSError FileExistsError p), w)
  | None =>
      match lookup_node (fs w) (parent p) with
      | Some Dir =>
          (Ok tt, {| fs := <[p := Dir]> (fs w); out := out w; reqs := reqs w |})
      | Some (File _) => (Raise (OSError NotADirectoryError p), w)
      | None => (Raise (OSError FileNotFoundError p), w)
      end
  end.
Proof.
  unfold os_mkdir. rewrite bind_run. simpl.
  destruct (lookup_node (fs w) p); [done|].
  destruct (lookup_node (fs w) (parent p)) as [[|c]|]; done.
Qed.

Lemma open_w_run p w :
  open_w p w =
  match lookup_node (fs w) p with
  | Some Dir => (Raise (OSError IsADirectoryError p), w)
  | _ =>
      match lookup_node (fs w) (parent p) with
      | Some Dir =>
          (Ok tt, {| fs := <[p := File (Raw [])]> (fs w); out := out w;
                     reqs := reqs w |})
      | Some (File _) => (Raise (OSError NotADirectoryError p), w)
      | None => (Raise (OSError FileNotFoundError p), w)
      end
  end.
Proof.
  unfold open_w. rewrite bind_run. simpl.
  destruct (lookup_node (fs w) p) as [[|c]|]; [done| |];
    destruct (lookup_node (fs w) (parent p)) as [[|c']|]; done.
Qed.

Lemma alter_node_run g p w :
  alter_node g p w =
  (Ok tt, {| fs := alter g p (fs w); out := out w; reqs := reqs w |}).
Proof. reflexivity. Qed.

Section Primitives.

Variable E : env.

Lemma get_run req w :
  get E req w =
  let w' := {| fs := fs w; out := out w; reqs := reqs w ++ [req] |} in
  match session_get E req with
  | NoResponse e => (Raise (RequestException e), w')
  | Response r =>
      if req_stream req then (Ok r, w')
      else match body_error r with
           | Some e => (Raise (RequestException e), w')
           | None => (Ok r, w')
           end
  end.
Proof. reflexivity. Qed.

Lemma get_fs_unchanged req w : fs (snd (get E req w)) = fs w.
Proof.
  rewrite get_run. simpl.
  destruct (session_get E req) as [e|r]; [done|].
  destruct (req_stream req); [done|]. by destruct (body_error r).
Qed.

Lemma get_reqs req w : reqs (snd (get E req w)) = reqs w ++ [req].
Proof.
  rewrite get_run. simpl.
  destruct (session_get E req) as [e|r]; [done|].
  destruct (req_stream req); [done|]. by destruct (body_error r).
Qed.

(** *** [fs_le] *)

Lemma fs_le_emit ev : preserves fs_le (emit ev).
Proof. intros w p n Hn. exists n. split; [done | apply same_kind_refl]. Qed.

Lemma fs_le_insert w p n0 :
  (∀ n, fs w !! p = Some n → same_kind n n0) →
  fs_le w {| fs := <[p := n0]> (fs w); out := out w; reqs := reqs w |}.
Proof.
  intros Hp q n Hn. simpl. destruct (decide (p = q)) as [->|Hne].
  - rewrite lookup_insert_eq. eauto.
  - rewrite lookup_insert_ne by done. exists n.
    split; [done | apply same_kind_refl].
Qed.

Lemma fs_le_os_mkdir p : preserves fs_le (os_mkdir p).
Proof.
  intros w. rewrite os_mkdir_run.
  destruct (lookup_node (fs w) p) eqn:Hp; [reflexivity|].
  destruct (lookup_node (fs w) (parent p)) as [[|c]|]; try reflexivity.
  simpl. apply fs_le_insert. intros n Hn.
  apply lookup_node_None in Hp. congruence.
Qed.

Lemma fs_le_open_w p : preserves fs_le (open_w p).
Proof.
  intros w. rewrite open_w_run.
  destruct (lookup_node (fs w) p) as [[|c]|] eqn:Hp; [reflexivity| |];
    destruct (lookup_node (fs w) (parent p)) as [[|c']|]; try reflexivity;
    simpl; apply fs_le_insert; intros n Hn.
  - apply lookup_node_Some_File in Hp. simplify_eq. simpl. eauto.
  - apply lookup_node_None in Hp. congruence.
Qed.

Lemma fs_le_alter g p : keeps_kind g → preserves fs_le (alter_node g p).
Proof.
  intros [HD HF] w q n Hn. rewrite alter_node_run. simpl.
  destruct (decide (p = q)) as [->|Hne].
  - rewrite lookup_alter_eq, Hn. simpl. exists (g n). split; [done|].
    destruct n as [|c]; simpl; [done | apply HF].
  - rewrite lookup_alter_ne by done. exists n.
    split; [done | apply same_kind_refl].
Qed.

Lemma fs_le_get req : preserves fs_le (get E req).
Proof.
  intros w p n Hn. rewrite get_fs_unchanged. exists n.
  split; [done | apply same_kind_refl].
Qed.

(** *** [same_reqs] *)

Lemma same_reqs_emit ev : preserves same_reqs (emit ev).
Proof. intros w. reflexivity. Qed.

Lemma same_reqs_os_mkdir p : preserves same_reqs (os_mkdir p).
Proof.
  intros w. rewrite os_mkdir_run.
  destruct (lookup_node (fs w) p); [reflexivity|].
  destruct (lookup_node (fs w) (parent p)) as [[|c]|]; reflexivity.
Qed.

Lemma same_reqs_open_w p : preserves same_reqs (open_w p).
Proof.
  intros w. rewrite open_w_run.
  destruct (lookup_node (fs w) p) as [[|c]|]; [reflexivity| |];
    destruct (lookup_node (fs w) (parent p)) as [[|c']|]; reflexivity.
Qed.

Lemma same_reqs_alter g p : keeps_kind g → preserves same_reqs (alter_node g p).
Proof. intros _ w. reflexivity. Qed.

(** *** [dirs_only] *)

Lemma dirs_in_emit allowed ev : preserves (dirs_in allowed) (emit ev).
Proof. intros w. split; [done | by left]. Qed.

Lemma dirs_in_os_mkdir (allowed : path → Prop) p :
  (p ≠ [] → allowed p) → preserves (dirs_in allowed) (os_mkdir p).
Proof.
  intros Hp0 w. rewrite os_mkdir_run.
  destruct (lookup_node (fs w) p) eqn:Hp; [reflexivity|].
  destruct (lookup_node (fs w) (parent p)) as [[|c]|]; try reflexivity.
  simpl. split; [done|]. intros q. simpl.
  destruct (decide (p = q)) as [->|Hne].
  - right. rewrite lookup_insert_eq. split_and!; [|by apply lookup_node_None|done].
    apply Hp0. by intros ->.
  - left. by rewrite lookup_insert_ne.
Qed.

Lemma dirs_only_os_mkdir p : preserves dirs_only (os_mkdir p).
Proof. by apply dirs_in_os_mkdir. Qed.

End Primitives.

(** The bundle of [fs_le] facts. *)
Section FsLe.

Variable E : env.

Lemma fs_le_mkdir p parents exist_ok :
  preserves fs_le (mkdir p parents exist_ok).
Proof. apply preserves_mkdir; auto using fs_le_os_mkdir with typeclass_instances. Qed.

Lemma fs_le_download_file self url p description :
  preserves fs_le (download_file E self url p description).
Proof.
  apply preserves_download_file;
    auto using fs_le_emit, fs_le_open_w, fs_le_alter, fs_le_get
      with typeclass_instances.
Qed.

Lemma fs_le_extractall members targetpath :
  preserves fs_le (extractall members targetpath).
Proof.
  apply preserves_extractall;
    auto using fs_le_os_mkdir, fs_le_open_w, fs_le_alter
      with typeclass_instances.
Qed.

Lemma fs_le_extract_zip self zip_path extract_dir :
  preserves fs_le (extract_zip E self zip_path extract_dir).
Proof.
  apply preserves_extract_zip;
    auto using fs_le_emit, fs_le_os_mkdir, fs_le_open_w, fs_le_alter
      with typeclass_instances.
Qed.

Lemma fs_le_nic_loop self keys success :
  preserves fs_le (nic_loop E self keys success).
Proof.
  apply preserves_nic_loop;
    auto using fs_le_emit, fs_le_os_mkdir, fs_le_open_w, fs_le_alter,
      fs_le_get with typeclass_instances.
Qed.

Lemma fs_le_download_chicago_fed_data self :
  preserves fs_le (download_chicago_fed_data self).
Proof.
  apply preserves_download_chicago_fed_data;
    auto using fs_le_emit, fs_le_open_w, fs_le_alter with typeclass_instances.
Qed.

Lemma fs_le_download_cdr_info self :
  preserves fs_le (download_cdr_info self).
Proof.
  apply preserves_download_cdr_info;
    auto using fs_le_emit, fs_le_open_w, fs_le_alter with typeclass_instances.
Qed.

Lemma fs_le__save_manifest self results :
  preserves fs_le (_save_manifest E self results).
Proof.
  apply preserves__save_manifest;
    auto using fs_le_emit, fs_le_open_w, fs_le_alter with typeclass_instances.
Qed.

Lemma fs_le_main a : preserves fs_le (main E a).
Proof.
  apply preserves_main;
    auto using fs_le_emit, fs_le_os_mkdir, fs_le_open_w, fs_le_alter,
      fs_le_get with typeclass_instances.
Qed.

End FsLe.

(** ** The exceptions a computation can end with *)

Lemma throws_mono {A} (P Q : exn → Prop) (m : M A) :
  throws P m → (∀ e, P e → Q e) → throws Q m.
Proof. intros Hm HPQ w e w' Hr. eauto. Qed.

Lemma throws_ret {A} P (a : A) : throws P (mret a).
Proof. intros w e w' Hr. discriminate. Qed.

Lemma throws_raise {A} (P : exn → Prop) e : P e → throws P (@raise A e).
Proof. intros He w e' w' Hr. unfold raise in Hr. by simplify_eq. Qed.

Lemma throws_get_fs P : throws P get_fs.
Proof. intros w e w' Hr. discriminate. Qed.

Lemma throws_set_fs P f : throws P (set_fs f).
Proof. intros w e w' Hr. discriminate. Qed.

Lemma throws_emit P ev : throws P (emit ev).
Proof. intros w e w' Hr. discriminate. Qed.

Lemma throws_alter_node P g p : throws P (alter_node g p).
Proof. intros w e w' Hr. discriminate. Qed.

Lemma throws_bind {A B} P (m : M A) (k : A → M B) :
  throws P m → (∀ a, throws P (k a)) → throws P (m ≫= k).
Proof.
  intros Hm Hk w e w' Hr. apply bind_raise_inv in Hr as [Hr|(a & w1 & _ & Hr)].
  - eapply Hm, Hr.
  - eapply Hk, Hr.
Qed.

(** The body may end with [Q]; what the clause does not handle must be in
    [P], and so must what the handler raises. *)
Lemma throws_try_except {A} (Q P : exn → Prop) (body : M A) handled handler :
  throws Q body →
  (∀ e, Q e → handled e = false → P e) →
  (∀ e, Q e → handled e = true → throws P (handler e)) →
  throws P (try_except body handled handler).
Proof.
  intros Hb Hu Hh w e w' Hr. rewrite try_except_run in Hr.
  destruct (body w) as [[a|e0] w1] eqn:Hbody; [discriminate|].
  pose proof (Hb _ _ _ Hbody) as HQ.
  destruct (handled e0) eqn:Hd.
  - eapply Hh; eauto.
  - simplify_eq. auto.
Qed.

Lemma os_exn_local e : os_exn e → local_exn e.
Proof. by destruct e. Qed.

Ltac thr_step :=
  lazymatch goal with
  | |- throws _ (mret _) => apply throws_ret
  | |- throws _ (raise _) => apply throws_raise; done
  | |- throws _ get_fs => apply throws_get_fs
  | |- throws _ (set_fs _) => apply throws_set_fs
  | |- throws _ (emit _) => apply throws_emit
  | |- throws _ (print _) => apply throws_emit
  | |- throws _ (alter_node _ _) => apply throws_alter_node
  | |- throws _ (mbind _ _) => apply throws_bind; [|intros ?]
  | |- throws _ (if ?b then _ else _) => destruct b eqn:?
  | |- throws _ (match ?x with _ => _ end) => destruct x eqn:?
  | |- throws _ ?m =>
      match goal with H : throws _ m |- _ => exact H end
  end.

Ltac thr := cbv zeta; repeat thr_step.

Lemma throws_os_mkdir p : throws os_exn (os_mkdir p).
Proof. unfold os_mkdir. thr. Qed.

Lemma throws_open_w p : throws os_exn (open_w p).
Proof. unfold open_w. thr. Qed.

Lemma throws_put_content P p c : throws P (put_content p c).
Proof. apply throws_alter_node. Qed.

Lemma throws_write_bytes P p chunk : throws P (write_bytes p chunk).
Proof. apply throws_alter_node. Qed.

Lemma throws_mkdir_flat p exist_ok : throws os_exn (mkdir_flat p exist_ok).
Proof.
  unfold mkdir_flat.
  apply (throws_try_except os_exn); [apply throws_os_mkdir | done |].
  intros e He _. thr.
Qed.

Lemma throws_mkdir_rev rp parents exist_ok :
  throws os_exn (mkdir_rev rp parents exist_ok).
Proof.
  revert parents exist_ok. induction rp as [|c rp IH]; intros; simpl;
    (apply (throws_try_except os_exn); [apply throws_os_mkdir | done |]);
    intros e He _; thr; auto using throws_mkdir_flat.
Qed.

Lemma throws_mkdir p parents exist_ok :
  throws os_exn (mkdir p parents exist_ok).
Proof. apply throws_mkdir_rev. Qed.

Lemma throws_makedirs_rev rp : throws os_exn (makedirs_rev rp).
Proof.
  induction rp as [|c rp IH]; simpl; thr; auto using throws_os_mkdir.
  apply (throws_try_except os_exn); [done | done |]. intros; thr.
Qed.

Lemma throws_makedirs p : throws os_exn (makedirs p).
Proof. apply throws_makedirs_rev. Qed.

Lemma throws_getitem {V} (d : list (string * V)) key :
  throws local_exn (getitem d key).
Proof. unfold getitem. thr. Qed.

(** Filesystem operations raise [OSError] only, which every class used
    below contains. *)
Ltac thr_os :=
  eapply throws_mono;
    [ first [ apply throws_os_mkdir | apply throws_open_w
            | apply throws_mkdir | apply throws_makedirs ]
    | let e := fresh "e" in intros e; destruct e; done ].

Ltac thr_local :=
  thr; try thr_os;
  try (eapply throws_mono; [apply throws_getitem | intros ? [? ?]; done]).

Section Throws.

Variable E : env.

Lemma throws_log P self msg : throws P (log self msg).
Proof. unfold log. thr. Qed.

Lemma throws_get req : throws not_zip (get E req).
Proof.
  intros w e w' Hr. rewrite get_run in Hr. simpl in Hr.
  destruct (session_get E req) as [e0|r]; [by simplify_eq|].
  destruct (req_stream req); [discriminate|].
  destruct (body_error r); by simplify_eq.
Qed.

Lemma throws_write_chunks P self p total chunks downloaded :
  throws P (write_chunks self p total chunks downloaded).
Proof.
  revert downloaded. induction chunks as [|chunk chunks IH]; intros; simpl.
  - thr.
  - destruct chunk as [|b chunk]; [apply IH|].
    thr; auto using throws_write_bytes.
Qed.

Lemma throws_download_file self url p description :
  throws local_exn (download_file E self url p description).
Proof.
  unfold download_file. apply (throws_try_except not_zip).
  - unfold raise_for_status, int_content_length.
    thr; try thr_os;
      auto using throws_log, throws_get, throws_write_chunks.
  - intros e Hz Hr. by split.
  - intros e _ _. thr. apply throws_log.
Qed.

Lemma throws_ZipFile p : throws not_req (ZipFile E p).
Proof. unfold ZipFile, read_file. thr. Qed.

Lemma throws_extract_member targetpath m :
  throws not_req (extract_member targetpath m).
Proof.
  unfold extract_member.
  thr; try thr_os; auto using throws_write_bytes.
Qed.

Lemma throws_extractall members targetpath :
  throws not_req (extractall members targetpath).
Proof.
  induction members as [|m members IH]; simpl; thr.
  apply throws_extract_member.
Qed.

Lemma throws_extract_zip self zip_path extract_dir :
  throws local_exn (extract_zip E self zip_path extract_dir).
Proof.
  unfold extract_zip. apply (throws_try_except not_req).
  - thr; auto using throws_ZipFile, throws_extractall, throws_log.
  - intros e Hq Hz. by split.
  - intros e _ _. thr. apply throws_log.
Qed.

Lemma throws_fdic_loop self keys success :
  throws local_exn (fdic_loop E self keys success).
Proof.
  revert success. induction keys as [|key keys IH]; intros; simpl; thr_local;
    auto using throws_download_file.
Qed.

Lemma throws_download_fdic_failed_banks self :
  throws local_exn (download_fdic_failed_banks E self).
Proof.
  unfold download_fdic_failed_banks.
  thr; auto using throws_log, throws_fdic_loop.
Qed.

Lemma throws_download_fdic_api_data self endpoint limit :
  throws local_exn (download_fdic_api_data E self endpoint limit).
Proof.
  unfold download_fdic_api_data. apply (throws_try_except not_zip).
  - unfold raise_for_status. thr; auto using throws_log, throws_get.
  - intros e Hz Hr. by split.
  - intros e _ _. thr. apply throws_log.
Qed.

Lemma throws_dict_to_list fieldnames row :
  throws local_exn (dict_to_list fieldnames row).
Proof. unfold dict_to_list, py_keys. thr. Qed.

Lemma throws_writerows p fieldnames rows :
  throws local_exn (writerows p fieldnames rows).
Proof.
  induction rows as [|row rows IH]; simpl; thr.
  apply throws_dict_to_list.
Qed.

Lemma throws__json_to_csv self records p :
  throws local_exn (_json_to_csv self records p).
Proof.
  unfold _json_to_csv, py_first, py_keys.
  thr_local; auto using throws_put_content, throws_writerows, throws_log.
Qed.

Lemma throws_download_fdic_failures_api self :
  throws local_exn (download_fdic_failures_api E self).
Proof.
  unfold download_fdic_failures_api, py_in, py_getitem.
  thr_local; auto using throws_log, throws_download_fdic_api_data,
    throws_put_content, throws__json_to_csv, throws_getitem.
Qed.

Lemma throws_nic_loop self keys success :
  throws local_exn (nic_loop E self keys success).
Proof.
  revert success. induction keys as [|key keys IH]; intros; simpl; thr_local;
    auto using throws_download_file, throws_extract_zip.
Qed.

Lemma throws_download_nic_data self :
  throws local_exn (download_nic_data E self).
Proof.
  unfold download_nic_data. thr; auto using throws_log, throws_nic_loop.
Qed.

Lemma throws_download_chicago_fed_data self :
  throws local_exn (download_chicago_fed_data self).
Proof.
  unfold download_chicago_fed_data.
  thr_local; auto using throws_log, throws_put_content.
Qed.

Lemma throws_download_cdr_info self :
  throws local_exn (download_cdr_info self).
Proof.
  unfold download_cdr_info.
  thr_local; auto using throws_log, throws_put_content.
Qed.

Lemma throws__save_manifest self results :
  throws local_exn (_save_manifest E self results).
Proof.
  unfold _save_manifest.
  thr_local; auto using throws_log, throws_put_content.
Qed.

Lemma throws_download_all self : throws local_exn (download_all E self).
Proof.
  unfold download_all.
  thr; auto using throws_download_fdic_failed_banks,
    throws_download_fdic_failures_api, throws_download_nic_data,
    throws_download_chicago_fed_data, throws_download_cdr_info,
    throws__save_manifest.
Qed.

End Throws.

(** * What each operation does *)

(** ** Opening and writing files *)

Lemma open_w_open_error p w :
  open_w p w =
  match open_error (fs w) p with
  | Some e => (Raise e, w)
  | None =>
      (Ok tt, {| fs := <[p := File (Raw [])]> (fs w); out := out w;
                 reqs := reqs w |})
  end.
Proof.
  rewrite open_w_run. unfold open_error.
  destruct (lookup_node (fs w) p) as [[|c]|]; [done| |];
    destruct (lookup_node (fs w) (parent p)) as [[|c']|]; done.
Qed.

Lemma open_error_os f p e : open_error f p = Some e → os_exn e.
Proof.
  unfold open_error. intros H.
  destruct (lookup_node f p) as [[|c]|]; [by simplify_eq| |];
    destruct (lookup_node f (parent p)) as [[|c']|]; by simplify_eq.
Qed.

Lemma alter_insert_Some (f : gmap path node) p g n :
  f !! p = Some n → alter g p f = <[p := g n]> f.
Proof.
  intros Hn. apply map_eq. intros q. destruct (decide (p = q)) as [->|Hne].
  - by rewrite lookup_alter_eq, lookup_insert_eq, Hn.
  - by rewrite lookup_alter_ne, lookup_insert_ne.
Qed.

Section Transfers.

Variable E : env.

(** Logging changes the output only. *)
Lemma log_run self msg w :
  ∃ o', log self msg w = (Ok tt, {| fs := fs w; out := o'; reqs := reqs w |}).
Proof.
  unfold log. destruct (verbose self).
  - by exists (out w ++ [Log msg]).
  - exists (out w). by destruct w.
Qed.

(** The loop over the chunks appends them all to the open file. *)
Lemma write_chunks_run self p total chunks downloaded w b0 :
  fs w !! p = Some (File (Raw b0)) →
  ∃ d' o',
    write_chunks self p total chunks downloaded w =
    (Ok d', {| fs := <[p := File (Raw (b0 ++ concat chunks))]> (fs w);
               out := o'; reqs := reqs w |}).
Proof.
  revert downloaded w b0.
  induction chunks as [|chunk chunks IH]; intros downloaded w b0 Hp; simpl.
  - exists downloaded, (out w). rewrite app_nil_r, insert_id by done.
    by destruct w.
  - destruct chunk as [|b chunk]; [by apply IH|].
    rewrite bind_run. unfold write_bytes. rewrite alter_node_run, bind_run.
    rewrite (alter_insert_Some _ _ _ _ Hp). simpl append_raw.
    set (d1 := downloaded + _).
    set (w1 := {| fs := _; out := out w; reqs := reqs w |}).
    assert (∃ o1, (if verbose self && (0 <? total)
                   then emit (Progress d1 total) else mret ()) w1 =
                  (Ok tt, {| fs := fs w1; out := o1; reqs := reqs w1 |}))
      as [o1 ->].
    { destruct (verbose self && (0 <? total)); eexists; reflexivity. }
    edestruct (IH d1 {| fs := fs w1; out := o1; reqs := reqs w1 |}
                  (b0 ++ b :: chunk)) as (d' & o' & ->).
    { simpl. apply lookup_insert_eq. }
    exists d', o'. simpl. rewrite insert_insert_eq.
    by rewrite <- app_assoc.
Qed.

(** Every run of [download_file], by what the network answers and what the
    filesystem allows.  The request is always sent; only a complete transfer
    with a status below 400 (or from 600) gives [True]. *)
Lemma download_file_run self url p description w :
  ∃ o',
    download_file E self url p description w =
    let sent f := {| fs := f; out := o'; reqs := reqs w ++ [file_request url] |} in
    match session_get E (file_request url) with
    | NoResponse e => (Ok false, sent (fs w))
    | Response r =>
        if error_status r then (Ok false, sent (fs w))
        else
          match content_length r with
          | Some None => (Raise ValueError, sent (fs w))
          | _ =>
              match open_error (fs w) p with
              | Some e => (Raise e, sent (fs w))
              | None =>
                  (Ok (match body_error r with Some _ => false | None => true end),
                   sent (<[p := File (Raw (concat (body r)))]> (fs w)))
              end
          end
    end.
Proof.
  unfold download_file. rewrite try_except_run.
  set (msg := "Downloading: " +:+ _).
  rewrite bind_run.
  destruct (log_run self msg w) as [o0 ->].
  rewrite bind_run, get_run. fold (file_request url). cbv zeta.
  simpl req_stream. simpl fs. simpl reqs. simpl out.
  destruct (session_get E (file_request url)) as [e|r].
  { simpl. unfold log. destruct (verbose self); eexists; reflexivity. }
  rewrite bind_run. unfold raise_for_status. fold (error_status r).
  destruct (error_status r).
  { simpl. unfold log. destruct (verbose self); eexists; reflexivity. }
  simpl. rewrite bind_run. unfold int_content_length.
  assert (∀ total : Z, ∃ o',
    (open_w p;;
     write_chunks self p total (body r) 0;;
     match body_error r with
     | Some e => raise (RequestException e)
     | None => mret ()
     end;;
     (if verbose self && (0 <? total) then print "" else mret ());;
     log self ("  Saved to: " +:+ show_path p);; mret true)
      {| fs := fs w; out := o0; reqs := reqs w ++ [file_request url] |} =
    match open_error (fs w) p with
    | Some e => (Raise e, {| fs := fs w; out := o0;
                             reqs := reqs w ++ [file_request url] |})
    | None =>
        match body_error r with
        | Some e =>
            (Raise (RequestException e),
             {| fs := <[p := File (Raw (concat (body r)))]> (fs w); out := o';
                reqs := reqs w ++ [file_request url] |})
        | None =>
            (Ok true,
             {| fs := <[p := File (Raw (concat (body r)))]> (fs w); out := o';
                reqs := reqs w ++ [file_request url] |})
        end
    end) as Hrest.
  { intros total. rewrite bind_run, open_w_open_error. cbn [fs out reqs].
    destruct (open_error (fs w) p) as [e|]; [by exists o0|].
    rewrite bind_run.
    edestruct (write_chunks_run self p total (body r) 0
                 {| fs := <[p := File (Raw [])]> (fs w); out := o0;
                    reqs := reqs w ++ [file_request url] |} [])
      as (d' & o1 & ->).
    { simpl. apply lookup_insert_eq. }
    simpl. rewrite insert_insert_eq.
    destruct (body_error r) as [e|]; [by exists o1|].
    rewrite !bind_run. simpl.
    unfold log, print. destruct (verbose self); simpl.
    - destruct (0 <? total); eexists; reflexivity.
    - eexists; reflexivity. }
  destruct (content_length r) as [[total|]|].
  - simpl. destruct (Hrest total) as [o' ->].
    destruct (open_error (fs w) p) as [e|] eqn:Ho.
    + apply open_error_os in Ho. destruct e; try done. by exists o0.
    + destruct (body_error r); simpl; [|by exists o'].
      unfold log. destruct (verbose self); eexists; reflexivity.
  - simpl. by exists o0.
  - simpl. destruct (Hrest 0) as [o' ->].
    destruct (open_error (fs w) p) as [e|] eqn:Ho.
    + apply open_error_os in Ho. destruct e; try done. by exists o0.
    + destruct (body_error r); simpl; [|by exists o'].
      unfold log. destruct (verbose self); eexists; reflexivity.
Qed.

End Transfers.

(** * The claims *)

(** ** Transport failures in [download_file] *)

(** C3, as the code has it.  When the transfer fails at the transport level,
    that is no response arrives (time-out, connection error), the status is
    4xx or 5xx, or the body of an accepted response breaks off,
    [download_file] never reports success and never lets a
    [RequestException] escape.  A failure before the body returns [False]
    and leaves the filesystem as it was; an interrupted body returns [False]
    and leaves the truncated file, provided the file could be opened and the
    content-length header was readable. *)
Theorem download_file_transport_failure E self url p description w :
  transport_failure (session_get E (file_request url)) = true →
  let run := download_file E self url p description w in
  fst run ≠ Ok true ∧
  (∀ e, fst run = Raise e → is_RequestException e = false) ∧
  (refused (session_get E (file_request url)) = true →
   fst run = Ok false ∧ fs (snd run) = fs w) ∧
  (∀ r, session_get E (file_request url) = Response r →
        error_status r = false →
        content_length r ≠ Some None →
        open_error (fs w) p = None →
        fst run = Ok false ∧
        fs (snd run) = <[p := File (Raw (concat (body r)))]> (fs w)).
Proof.
  intros Hfail. cbv zeta.
  destruct (download_file_run E self url p description w) as [o' ->].
  cbv zeta. unfold transport_failure, refused, interrupted in *.
  destruct (session_get E (file_request url)) as [e|r];
    [simpl; split_and!; intros; simplify_eq; try done; try congruence;
     split; done|].
  destruct (error_status r) eqn:Hs;
    [simpl; split_and!; intros; simplify_eq; try done; try congruence;
     split; done|].
  simpl in Hfail. destruct (body_error r) as [e|] eqn:Hb; [|done].
  assert (∀ e', open_error (fs w) p = Some e' → is_RequestException e' = false)
    as Hos.
  { intros e' Ho. apply open_error_os in Ho. by destruct e'. }
  destruct (content_length r) as [[total|]|] eqn:Hc;
    try destruct (open_error (fs w) p) as [e'|] eqn:Ho;
    simpl; split_and!; intros; simplify_eq; eauto; try done; try congruence;
    split; done.
Qed.

(** The theorem at work: a request that times out, and a body cut short
    after three bytes. *)
Lemma download_file_transport_failure_witness :
  fst (download_file offline (quiet_downloader []) "https://example.org/a.csv"
         ["a.csv"] "" empty_world) = Ok false ∧
  fs (snd (download_file (answering cut_short) (quiet_downloader [])
             "https://example.org/a.csv" ["a.csv"] "" empty_world))
    !! ["a.csv"] = Some (File (Raw ["a"; "b"; "c"]%byte)).
Proof.
  split.
  - apply (download_file_transport_failure offline (quiet_downloader [])
             "https://example.org/a.csv" ["a.csv"] "" empty_world);
      reflexivity.
  - destruct (download_file_transport_failure (answering cut_short)
                (quiet_downloader []) "https://example.org/a.csv" ["a.csv"] ""
                empty_world eq_refl) as (_ & _ & _ & H).
    destruct (H cut_short eq_refl eq_refl) as [_ ->]; [done | reflexivity |].
    apply lookup_insert_eq.
Defined.

(** C3 as stated fails on a status that is neither 2xx nor an error for
    [raise_for_status]: a 304 answer is reported as a successful download of
    an empty file. *)
Lemma download_file_304_reports_success :
  non_2xx not_modified = true ∧
  fst (download_file (answering not_modified) (quiet_downloader [])
         "https://example.org/a.csv" ["a.csv"] "" empty_world) = Ok true.
Proof. split; reflexivity. Qed.

(** ** Archives *)

Section Archives.

Variable E : env.

Lemma ZipFile_run zip_path data w :
  lookup_node (fs w) zip_path = Some (File (Raw data)) →
  ZipFile E zip_path w =
  match zip_open E data with
  | Some members => (Ok members, w)
  | None => (Raise BadZipFile, w)
  end.
Proof.
  intros Hp. unfold ZipFile, read_file. rewrite !bind_run. simpl.
  rewrite Hp. simpl. by destruct (zip_open E data).
Qed.

Lemma throws_extract_member_sound targetpath m :
  sound m = true → throws os_exn (extract_member targetpath m).
Proof.
  unfold sound, extract_member. intros Hs.
  destruct (zm_state m); try discriminate.
  thr; try thr_os; apply throws_write_bytes.
Qed.

Lemma throws_extractall_sound members targetpath :
  forallb sound members = true →
  throws os_exn (extractall members targetpath).
Proof.
  induction members as [|m members IH]; simpl; intros Hs; [thr|].
  apply andb_prop in Hs as [Hm Hs].
  apply throws_bind; [by apply throws_extract_member_sound | intros _; auto].
Qed.

End Archives.

(** C7.  When opening the archive fails because it is corrupt,
    [extract_zip] returns the empty list and raises nothing; it leaves the
    filesystem alone and passes the error message to [log], which prints it
    unless the downloader is quiet. *)
Theorem extract_zip_corrupt_archive E self zip_path extract_dir data w :
  lookup_node (fs w) zip_path = Some (File (Raw data)) →
  zip_open E data = None →
  let message := "  ERROR: Bad zip file " +:+ show_path zip_path +:+ ": " +:+
                 exn_text BadZipFile in
  extract_zip E self zip_path extract_dir w = (Ok [], snd (log self message w)) ∧
  fs (snd (log self message w)) = fs w ∧
  out (snd (log self message w)) =
    out w ++ (if verbose self then [Log message] else []).
Proof.
  intros Hp Hz. cbv zeta. split_and!.
  - unfold extract_zip. rewrite try_except_run, bind_run.
    rewrite (ZipFile_run E _ _ _ Hp), Hz. simpl.
    rewrite bind_run.
    match goal with
    | |- context [log self ?m w] => destruct (log_run self m w) as [o' ->]
    end.
    reflexivity.
  - unfold log. by destruct (verbose self).
  - unfold log. destruct (verbose self); simpl; [done | by rewrite app_nil_r].
Qed.

(** The theorem on an archive file that holds no archive. *)
Lemma extract_zip_corrupt_archive_witness :
  fst (extract_zip unzipping (quiet_downloader []) ["a.zip"] ["a"]
         (archive_world ["x"]%byte)) = Ok [].
Proof.
  destruct (extract_zip_corrupt_archive unzipping (quiet_downloader [])
              ["a.zip"] ["a"] ["x"]%byte (archive_world ["x"]%byte)
              eq_refl eq_refl) as [-> _].
  reflexivity.
Defined.



(** ** The failed-bank list *)

Section FailedBanks.

Variable E : env.

(** What a caller sees of [download_file]: the request is sent; then either
    the result says whether the transfer went through, or a local error
    (filesystem, header) ends the call. *)
Lemma download_file_outcome self url p description w :
  ∃ w',
    reqs w' = reqs w ++ [file_request url] ∧
    (download_file E self url p description w =
       (Ok (transfer_ok (session_get E (file_request url))), w') ∨
     ∃ e, local_exn e ∧
          download_file E self url p description w = (Raise e, w')).
Proof.
  destruct (download_file_run E self url p description w) as [o' ->].
  cbv zeta. unfold transfer_ok, transport_failure, refused, interrupted.
  destruct (session_get E (file_request url)) as [e|r].
  { eexists. split; [|left; reflexivity]. done. }
  destruct (error_status r).
  { eexists. split; [|left; reflexivity]. done. }
  assert (∀ e', open_error (fs w) p = Some e' → local_exn e') as Hos.
  { intros e' Ho. eapply os_exn_local, open_error_os, Ho. }
  destruct (content_length r) as [[total|]|];
    try destruct (open_error (fs w) p) as [e'|] eqn:Ho;
    eexists; (split; [shelve|]).
  all: try (left; simpl; destruct (body_error r); reflexivity).
  all: try (right; eexists; split; [|reflexivity]; eauto; done).
  Unshelve. all: done.
Qed.

Lemma getitem_run {V} (d : list (string * V)) key v w :
  dict_get d key = Some v → getitem d key w = (Ok v, w).
Proof. unfold getitem. by intros ->. Qed.

End FailedBanks.

(** One step of a run: the next logged line. *)
Ltac run_log :=
  rewrite bind_run;
  match goal with
  | |- context [log ?s ?m ?w] =>
      let o := fresh "o" in destruct (log_run s m w) as [o ->]
  end;
  cbn [fs out reqs].


(** With the first mirror up and the second down, both are requested and
    the step reports failure. *)
Lemma fdic_step_example :
  map req_url (reqs (snd (download_fdic_failed_banks one_mirror
                            (quiet_downloader ["out"]) ready_world))) =
    ["https://www.fdic.gov/bank-failures/download-data.csv";
     "https://www.fdic.gov/resources/resolutions/bank-failures/failed-bank-list/banklist.csv"] ∧
  fst (download_fdic_failed_banks one_mirror (quiet_downloader ["out"])
         ready_world) = Ok false.
Proof. split; vm_compute; reflexivity. Qed.

(** ** The full run and its manifest *)

(** Opening a file, writing a document into it and logging: when no error
    is raised the file holds the document and nothing else changed. *)
Lemma write_document_ok self p c msg w w' :
  (open_w p;; put_content p c;; log self msg) w = (Ok tt, w') →
  fs w' = <[p := File c]> (fs w) ∧ reqs w' = reqs w.
Proof.
  rewrite bind_run, open_w_open_error.
  destruct (open_error (fs w) p) as [e|]; [discriminate|].
  unfold put_content. rewrite bind_run, alter_node_run. cbn [fs out reqs].
  match goal with
  | |- context [log self msg ?w0] => destruct (log_run self msg w0) as [o ->]
  end.
  intros [= <-]. cbn [fs reqs]. split; [|done].
  rewrite (alter_insert_Some _ _ _ (File (Raw []))) by apply lookup_insert_eq.
  simpl. apply insert_insert_eq.
Qed.


(** ** The FDIC API step *)

Lemma path_div_relative p s :
  String.prefix "/" s = false → path_div p s = p ++ path_of_string s.
Proof. unfold path_div. by intros ->. Qed.

Lemma api_paths self :
  api_json_path self =
    (output_dir self ++ ["fdic"]) ++ ["fdic_failures_api.json"] ∧
  api_csv_path self =
    (output_dir self ++ ["fdic"]) ++ ["fdic_failures_api.csv"].
Proof.
  unfold api_json_path, api_csv_path.
  rewrite !path_div_relative by reflexivity. split; reflexivity.
Qed.

Lemma parent_snoc (p : path) c : parent (p ++ [c]) = p.
Proof. unfold parent. apply removelast_last. Qed.

Lemma lookup_node_insert_ne f p q n :
  p ≠ q → lookup_node (<[p := n]> f) q = lookup_node f q.
Proof.
  intros Hne. destruct q as [|c q]; [done|]. simpl.
  by rewrite lookup_insert_ne.
Qed.

(** Writing a sibling file does not change whether a file can be opened. *)
Lemma open_error_insert_sibling f d c1 c2 n :
  c1 ≠ c2 →
  open_error (<[d ++ [c1] := n]> f) (d ++ [c2]) = open_error f (d ++ [c2]).
Proof.
  intros Hne. unfold open_error. rewrite parent_snoc.
  rewrite !lookup_node_insert_ne; [done| |].
  - intros Heq. apply (f_equal length) in Heq. rewrite length_app in Heq.
    simpl in Heq. lia.
  - intros Heq. apply app_inv_head in Heq. congruence.
Qed.

Section ApiStep.

Variable E : env.

(** [download_fdic_api_data] never raises: every failure of the request is
    turned into [None]. *)
Lemma download_fdic_api_data_run self endpoint limit w :
  ∃ o',
    download_fdic_api_data E self endpoint limit w =
    (Ok (api_document E endpoint limit),
     {| fs := fs w; out := o';
        reqs := reqs w ++ [api_request endpoint limit] |}).
Proof.
  unfold download_fdic_api_data. cbv zeta. rewrite try_except_run.
  run_log. rewrite bind_run, get_run. fold (api_request endpoint limit).
  cbv zeta. cbn [fs out reqs]. unfold api_document.
  assert (∀ (e : exn) w0, ∃ o1,
            (log self ("  ERROR: API request failed: " +:+ exn_text e);;
             mret JNull) w0 =
            (Ok JNull, {| fs := fs w0; out := o1; reqs := reqs w0 |}))
    as Hfail.
  { intros e w0. rewrite bind_run.
    destruct (log_run self ("  ERROR: API request failed: " +:+ exn_text e) w0)
      as [o1 ->]. by exists o1. }
  set (w1 := {| fs := fs w; out := o;
                reqs := reqs w ++ [api_request endpoint limit] |}).
  destruct (session_get E (api_request endpoint limit)) as [e|r].
  { exact (Hfail (RequestException e) w1). }
  simpl req_stream. cbv iota. destruct (body_error r) as [e|].
  { exact (Hfail (RequestException e) w1). }
  rewrite bind_run. unfold raise_for_status. fold (error_status r).
  destruct (error_status r).
  { exact (Hfail (RequestException (HTTPError (status_code r))) w1). }
  cbn [mret M_ret]. destruct (json_loads E (concat (body r))) as [j|].
  - by exists o.
  - exact (Hfail (RequestException JSONDecodeError) w1).
Qed.

(** The rows [writerows] adds when every record is acceptable. *)
Lemma writerows_run p fieldnames rows w header rows0 :
  fs w !! p = Some (File (CsvDoc header rows0)) →
  forallb (record_ok fieldnames) rows = true →
  writerows p fieldnames rows w =
  (Ok tt,
   {| fs := <[p := File (CsvDoc header
                            (rows0 ++ map (row_cells fieldnames) rows))]> (fs w);
      out := out w; reqs := reqs w |}).
Proof.
  revert w rows0. induction rows as [|row rows IH]; intros w rows0 Hp Hok.
  - simpl. rewrite app_nil_r, insert_id by done. by destruct w.
  - simpl in Hok. apply andb_prop in Hok as [Hrow Hok].
    cbn [writerows]. rewrite bind_run. unfold dict_to_list, py_keys.
    destruct row as [| | | | | |fields]; try discriminate.
    rewrite bind_run. simpl in Hrow. cbn [mret M_ret]. rewrite Hrow.
    cbn [mret M_ret]. rewrite bind_run, alter_node_run.
    rewrite (alter_insert_Some _ _ _ _ Hp). cbn [append_row].
    rewrite IH with (rows0 := rows0 ++ [row_cells fieldnames (JObj fields)]);
      [|apply lookup_insert_eq|done].
    cbn [fs out reqs]. rewrite insert_insert_eq.
    by rewrite <- app_assoc.
Qed.

End ApiStep.

Global Instance keeps_preorder q : PreOrder (keeps q).
Proof.
  split.
  - intros w. reflexivity.
  - intros w1 w2 w3 H12 H23. unfold keeps in *. congruence.
Qed.

Section Keeps.

Variables (q p : path).
Hypothesis Hpq : p ≠ q.

Lemma keeps_emit ev : preserves (keeps q) (emit ev).
Proof using Type. intros w. reflexivity. Qed.

Lemma keeps_log self msg : preserves (keeps q) (log self msg).
Proof using Type. unfold log. destruct (verbose self); [apply keeps_emit|]. pres. Qed.

Lemma keeps_open_w : preserves (keeps q) (open_w p).
Proof using Hpq.
  intros w. rewrite open_w_open_error.
  destruct (open_error (fs w) p); [reflexivity|].
  unfold keeps. simpl. by rewrite lookup_insert_ne.
Qed.

Lemma keeps_alter g : preserves (keeps q) (alter_node g p).
Proof using Hpq.
  intros w. rewrite alter_node_run. unfold keeps. simpl.
  by rewrite lookup_alter_ne.
Qed.

Lemma keeps_writerows fieldnames rows :
  preserves (keeps q) (writerows p fieldnames rows).
Proof using Hpq.
  induction rows as [|row rows IH]; simpl; [pres|].
  apply preserves_bind; [apply _| |intros r].
  - unfold dict_to_list, py_keys. pres.
  - apply preserves_bind; [apply _|apply keeps_alter|intros _; exact IH].
Qed.

Lemma keeps__json_to_csv self records :
  preserves (keeps q) (_json_to_csv self records p).
Proof using Hpq.
  unfold _json_to_csv. destruct (negb (truthy records)); [pres|].
  apply preserves_bind; [apply _|unfold py_first; pres|intros first].
  apply preserves_bind; [apply _|unfold py_keys; pres|intros headers].
  apply preserves_bind; [apply _|apply keeps_open_w|intros _].
  apply preserves_bind; [apply _|apply keeps_alter|intros _].
  apply preserves_bind; [apply _|apply keeps_writerows|intros _].
  apply keeps_log.
Qed.

End Keeps.

Lemma existsb_dict_get {V} (d : list (string * V)) key :
  existsb (λ kv, String.eqb (fst kv) key) d =
  match dict_get d key with Some _ => true | None => false end.
Proof.
  induction d as [|[k v] d IH]; simpl; [done|].
  destruct (String.eqb k key); [done | exact IH].
Qed.

Section CsvPart.

Variable E : env.

Lemma api_paths_differ self : api_csv_path self ≠ api_json_path self.
Proof.
  destruct (api_paths self) as [-> ->]. intros Heq.
  apply app_inv_head in Heq. discriminate.
Qed.

Lemma keeps_csv_part self data :
  preserves (keeps (api_json_path self)) (csv_part self data).
Proof.
  unfold csv_part.
  apply preserves_bind; [apply _|unfold py_in; pres|intros has_data].
  apply preserves_bind; [apply _| |intros _; pres].
  destruct has_data; [|pres].
  apply preserves_bind; [apply _| |intros records].
  - unfold py_getitem, getitem. pres.
  - apply keeps__json_to_csv, api_paths_differ.
Qed.

(** No records, no CSV file. *)
Lemma csv_part_no_records self data w :
  no_records data = true → csv_part self data w = (Ok true, w).
Proof.
  unfold no_records, csv_part. intros Hn.
  destruct data as [| | | | | |fields]; try discriminate.
  rewrite bind_run. cbn [py_in mret M_ret]. rewrite existsb_dict_get.
  destruct (dict_get fields "data") as [records|] eqn:Hd; [|done].
  rewrite !bind_run. cbn [py_getitem]. rewrite (getitem_run _ _ _ _ Hd).
  unfold _json_to_csv. by rewrite Hn.
Qed.

(** Acceptable records end up in the CSV file, under the keys of the first
    one. *)
Lemma csv_part_records self data w first rest fields :
  records_of data = Some (first :: rest) →
  first = JObj fields →
  forallb (record_ok (map fst fields)) (first :: rest) = true →
  open_error (fs w) (api_csv_path self) = None →
  ∃ o',
    csv_part self data w =
    (Ok true,
     {| fs := <[api_csv_path self :=
                  File (CsvDoc (map fst fields)
                          (map (row_cells (map fst fields)) (first :: rest)))]>
                (fs w);
        out := o'; reqs := reqs w |}).
Proof.
  unfold records_of, csv_part. intros Hr -> Hok Hopen.
  destruct data as [| | | | | |dfields]; try discriminate.
  rewrite bind_run. cbn [py_in mret M_ret]. rewrite existsb_dict_get.
  destruct (dict_get dfields "data") as [[| | | | |[|first' rest']|]|] eqn:Hd;
    try discriminate.
  injection Hr as -> ->.
  rewrite !bind_run. cbn [py_getitem]. rewrite (getitem_run _ _ _ _ Hd).
  unfold _json_to_csv. cbn [truthy negb].
  repeat (rewrite bind_run; cbn [py_first py_keys mret M_ret]).
  rewrite open_w_open_error, Hopen. rewrite !bind_run.
  unfold put_content. rewrite alter_node_run. cbn [fs out reqs].
  rewrite (alter_insert_Some _ _ _ (File (Raw []))) by apply lookup_insert_eq.
  cbn [set_content]. rewrite insert_insert_eq, bind_run.
  cbn [py_iter].
  rewrite (writerows_run _ _ _ _ (map fst fields) []);
    [|apply lookup_insert_eq|exact Hok].
  cbn [fs out reqs]. rewrite insert_insert_eq, app_nil_l.
  match goal with
  | |- context [log ?s ?m ?w0] => destruct (log_run s m w0) as [o ->]
  end.
  by exists o.
Qed.

End CsvPart.




(** ** Listing the sources *)

Lemma rev_drop_rev_prefix {A} (l : list A) k : rev (drop k (rev l)) `prefix_of` l.
Proof.
  exists (rev (take k (rev l))).
  rewrite <- rev_app_distr, take_drop. symmetry. apply rev_involutive.
Qed.

Section MakingDirectories.

Variable allowed : path → Prop.

Lemma dirs_in_mkdir_flat p exist_ok :
  (p ≠ [] → allowed p) →
  preserves (dirs_in allowed) (mkdir_flat p exist_ok).
Proof.
  intros Hp. unfold mkdir_flat.
  apply preserves_try_except; [apply _|by apply dirs_in_os_mkdir|].
  intros e. pres.
Qed.

Lemma dirs_in_mkdir_rev rp parents exist_ok :
  (∀ k, rev (drop k rp) ≠ [] → allowed (rev (drop k rp))) →
  preserves (dirs_in allowed) (mkdir_rev rp parents exist_ok).
Proof.
  revert parents exist_ok.
  induction rp as [|c rp IH]; intros parents exist_ok Hk; cbn [mkdir_rev];
    cbv zeta;
    (apply preserves_try_except;
      [apply _|apply dirs_in_os_mkdir, (Hk 0%nat)|intros e]).
  - pres.
  - destruct (is_FileNotFoundError e); [|pres].
    destruct parents; [|pres].
    apply preserves_bind; [apply _| |intros _].
    + apply IH. intros k. apply (Hk (S k)).
    + apply dirs_in_mkdir_flat, (Hk 0%nat).
Qed.

End MakingDirectories.

Section Listing.

Variable E : env.

Lemma dirs_in_init out_dir verb :
  preserves (dirs_in (made_by_init out_dir)) (init out_dir verb).
Proof.
  assert (∀ k, rev (drop k (rev out_dir)) ≠ [] →
               made_by_init out_dir (rev (drop k (rev out_dir)))) as Hout.
  { intros k Hne. split; [done|]. left. apply rev_drop_rev_prefix. }
  assert (∀ c, c ∈ ["fdic"; "nic"; "chicago_fed"; "metadata"] →
               String.prefix "/" c = false ∧ ∃ c', path_of_string c = [c'])
    as Hsub.
  { intros c Hc. repeat (apply elem_of_cons in Hc as [->|Hc]; [by eauto|]).
    by apply elem_of_nil in Hc. }
  assert (∀ c, c ∈ ["fdic"; "nic"; "chicago_fed"; "metadata"] →
               preserves (dirs_in (made_by_init out_dir))
                 (mkdir (path_div out_dir c) false true)) as Hmk.
  { intros c Hc. destruct (Hsub c Hc) as (Hrel & c' & Hparts).
    unfold mkdir. apply dirs_in_mkdir_rev. intros k Hne.
    destruct k as [|k].
    - split; [done|]. right. rewrite drop_0, rev_involutive.
      by apply list_elem_of_fmap_2.
    - rewrite path_div_relative, Hparts, rev_app_distr by done. simpl.
      apply Hout. revert Hne.
      by rewrite path_div_relative, Hparts, rev_app_distr by done. }
  unfold init. cbv zeta. cbn [output_dir].
  apply preserves_bind; [apply _|by apply dirs_in_mkdir_rev|intros _].
  repeat (apply preserves_bind;
    [apply _|apply Hmk; repeat constructor|intros _]).
  pres.
Qed.

End Listing.




(** ** Directories and extraction *)

Lemma fs_le_lookup_node w w' p n :
  fs_le w w' → lookup_node (fs w) p = Some n →
  ∃ n', lookup_node (fs w') p = Some n' ∧ same_kind n n'.
Proof.
  intros Hle Hp. destruct p as [|c p].
  - simpl in *. exists n. split; [done | apply same_kind_refl].
  - simpl in *. by apply Hle.
Qed.

Lemma fs_le_present w w' p dir :
  fs_le w w' → present (fs w) p dir → present (fs w') p dir.
Proof.
  unfold present. intros Hle Hp.
  destruct (lookup_node (fs w) p) as [n|] eqn:Hn; [|done].
  destruct (fs_le_lookup_node _ _ _ _ Hle Hn) as (n' & -> & Hk).
  destruct n; simpl in Hk; [by subst | by destruct Hk as [c' ->]].
Qed.

Lemma fs_le_is_dir w w' p :
  fs_le w w' → lookup_node (fs w) p = Some Dir →
  lookup_node (fs w') p = Some Dir.
Proof.
  intros Hle Hp.
  destruct (fs_le_lookup_node _ _ _ _ Hle Hp) as (n' & -> & Hk).
  simpl in Hk. by subst.
Qed.

Lemma os_mkdir_ok p w w' :
  os_mkdir p w = (Ok tt, w') → lookup_node (fs w') p = Some Dir.
Proof.
  rewrite os_mkdir_run.
  destruct (lookup_node (fs w) p) eqn:Hp; [discriminate|].
  destruct (lookup_node (fs w) (parent p)) as [[|c]|]; try discriminate.
  intros [= <-]. simpl. destruct p; [done|]. simpl. apply lookup_insert_eq.
Qed.

Lemma mkdir_handler_ok p exist_ok e w w' :
  (f ← get_fs; if exist_ok && is_dir f p then mret tt else raise e) w
    = (Ok tt, w') →
  lookup_node (fs w') p = Some Dir.
Proof.
  rewrite bind_run. simpl. unfold is_dir.
  destruct exist_ok; simpl; [|discriminate].
  destruct (lookup_node (fs w) p) as [[|c]|] eqn:Hp; try discriminate.
  by intros [= <-].
Qed.

Lemma mkdir_flat_ok p exist_ok w w' :
  mkdir_flat p exist_ok w = (Ok tt, w') → lookup_node (fs w') p = Some Dir.
Proof.
  unfold mkdir_flat. rewrite try_except_run.
  destruct (os_mkdir p w) as [[[]|e] w1] eqn:Hmk.
  - intros [= <-]. by eapply os_mkdir_ok.
  - destruct (is_OSError e); [|discriminate].
    destruct (is_FileNotFoundError e); [discriminate|].
    apply mkdir_handler_ok.
Qed.

(** A successful [mkdir] leaves a directory at its path. *)
Lemma mkdir_ok p parents exist_ok w w' :
  mkdir p parents exist_ok w = (Ok tt, w') →
  lookup_node (fs w') p = Some Dir.
Proof.
  unfold mkdir. rewrite <- (rev_involutive p) at 2.
  generalize (rev p) as rp. clear p. intros rp.
  destruct rp as [|c rp]; cbn [mkdir_rev]; cbv zeta; rewrite try_except_run.
  - destruct (os_mkdir (rev []) w) as [[[]|e] w1] eqn:Hmk.
    + intros [= <-]. by eapply os_mkdir_ok.
    + destruct (is_OSError e); [|discriminate].
      destruct (is_FileNotFoundError e); [discriminate|].
      apply mkdir_handler_ok.
  - destruct (os_mkdir (rev (c :: rp)) w) as [[[]|e] w1] eqn:Hmk.
    + intros [= <-]. by eapply os_mkdir_ok.
    + destruct (is_OSError e); [|discriminate].
      destruct (is_FileNotFoundError e); [|apply mkdir_handler_ok].
      destruct parents; [|discriminate].
      intros Hrun. apply bind_ok_inv in Hrun as ([] & w2 & _ & Hflat).
      by eapply mkdir_flat_ok.
Qed.

Lemma extract_member_ok targetpath m w w' :
  extract_member targetpath m w = (Ok tt, w') →
  present (fs w') (member_target targetpath m) (member_is_dir m).
Proof.
  unfold extract_member. cbv zeta. intros Hrun.
  apply bind_ok_inv in Hrun as (f & w0 & _ & Hrun).
  apply bind_ok_inv in Hrun as ([] & w1 & _ & Hrun).
  unfold present. destruct (member_is_dir m).
  - apply bind_ok_inv in Hrun as (f1 & w2 & Hget & Hrun).
    injection Hget as <- <-. unfold is_dir in Hrun.
    destruct (lookup_node (fs w1) (member_target targetpath m))
      as [[|c]|] eqn:Hp.
    + injection Hrun as <-. by rewrite Hp.
    + by rewrite (os_mkdir_ok _ _ _ Hrun).
    + by rewrite (os_mkdir_ok _ _ _ Hrun).
  - destruct (zm_state m).
    + apply bind_ok_inv in Hrun as ([] & w2 & Hopen & Hrun).
      rewrite open_w_open_error in Hopen.
      destruct (open_error (fs w1) (member_target targetpath m)) eqn:Ho;
        [discriminate|].
      injection Hopen as <-. unfold write_bytes in Hrun.
      rewrite alter_node_run in Hrun. injection Hrun as <-. simpl.
      assert (member_target targetpath m ≠ []) as Hne.
      { intros Heq. rewrite Heq in Ho. discriminate. }
      destruct (member_target targetpath m) as [|c p]; [done|]. simpl.
      by rewrite lookup_alter_eq, lookup_insert_eq.
    + discriminate.
    + apply bind_ok_inv in Hrun as ([] & w2 & _ & Hrun).
      apply bind_ok_inv in Hrun as ([] & w3 & _ & Hrun). discriminate.
Qed.

Lemma extractall_ok members targetpath w w' :
  extractall members targetpath w = (Ok tt, w') →
  Forall (λ m, present (fs w') (member_target targetpath m) (member_is_dir m))
    members.
Proof.
  revert w. induction members as [|m members IH]; intros w Hrun; [done|].
  cbn [extractall] in Hrun.
  apply bind_ok_inv in Hrun as ([] & w1 & Hm & Hrest).
  constructor; [|by eapply IH].
  eapply fs_le_present; [|by eapply extract_member_ok].
  exact (preserves_run fs_le _ _ _ _ (fs_le_extractall _ _) Hrest).
Qed.

(** ** The NIC step *)

Section NicStep.

Variable E : env.

Lemma same_reqs_mkdir p parents exist_ok :
  preserves same_reqs (mkdir p parents exist_ok).
Proof. apply preserves_mkdir; auto using same_reqs_os_mkdir with typeclass_instances. Qed.

Lemma same_reqs_extract_zip self zip_path dir :
  preserves same_reqs (extract_zip E self zip_path dir).
Proof.
  apply preserves_extract_zip;
    auto using same_reqs_emit, same_reqs_os_mkdir, same_reqs_open_w,
      same_reqs_alter with typeclass_instances.
Qed.

Lemma dirs_only_mkdir p parents exist_ok :
  preserves dirs_only (mkdir p parents exist_ok).
Proof. apply preserves_mkdir; auto using dirs_only_os_mkdir with typeclass_instances. Qed.

(** A successful download leaves the whole body in the file. *)
Lemma download_file_true self url p description w w1 :
  download_file E self url p description w = (Ok true, w1) →
  ∃ r, session_get E (file_request url) = Response r ∧
       lookup_node (fs w1) p = Some (File (Raw (concat (body r)))).
Proof.
  destruct (download_file_run E self url p description w) as [o' ->].
  cbv zeta. destruct (session_get E (file_request url)) as [e|r];
    [discriminate|].
  destruct (error_status r); [discriminate|].
  assert (open_error (fs w) p = None →
          lookup_node (<[p := File (Raw (concat (body r)))]> (fs w)) p =
            Some (File (Raw (concat (body r))))) as Hlook.
  { intros Ho. destruct p as [|c p]; [discriminate|]. simpl.
    apply lookup_insert_eq. }
  destruct (content_length r) as [[total|]|]; try discriminate;
    (destruct (open_error (fs w) p) eqn:Ho; [discriminate|]);
    (destruct (body_error r); [discriminate|]);
    intros [= <-]; exists r; (split; [done | by apply Hlook]).
Qed.

Lemma download_file_result self url p description w b w1 :
  download_file E self url p description w = (Ok b, w1) →
  b = transfer_ok (session_get E (file_request url)) ∧
  reqs w1 = reqs w ++ [file_request url].
Proof.
  intros Hrun.
  destruct (download_file_outcome E self url p description w)
    as (w' & Hreqs & [Hd|(e & _ & Hd)]); rewrite Hd in Hrun; [|discriminate].
  injection Hrun as <- <-. done.
Qed.

(** Extraction of a readable archive with sound members puts every entry
    in place, unless the filesystem raises an error. *)
Lemma extract_zip_extracts self zip_path dir data members w l w' :
  lookup_node (fs w) zip_path = Some (File (Raw data)) →
  zip_open E data = Some members →
  forallb sound members = true →
  extract_zip E self zip_path dir w = (Ok l, w') →
  Forall (λ m, present (fs w') (member_target dir m) (member_is_dir m)) members.
Proof.
  intros Hp Hz Hs. unfold extract_zip. rewrite try_except_run, bind_run.
  rewrite (ZipFile_run E _ _ _ Hp), Hz. rewrite bind_run.
  destruct (extractall members dir w) as [[[]|e] w1] eqn:Hx.
  - rewrite bind_run.
    match goal with
    | |- context [log ?s ?m ?w0] => destruct (log_run s m w0) as [o ->]
    end.
    intros [= _ <-]. simpl. by eapply extractall_ok.
  - pose proof (throws_extractall_sound members dir Hs _ _ _ Hx) as He.
    destruct e; try done.
Qed.

Lemma catalog_get key s : dict_get DATA_SOURCES key = Some s → catalog key = s.
Proof. unfold catalog. by intros ->. Qed.

(** The loop of [download_nic_data], when it ends without an error: one
    request per key, success iff every transfer went through, and every
    archive that arrived extracted into its own directory. *)
Lemma nic_loop_ok self keys :
  ∀ success w b w',
    nic_loop E self keys success w = (Ok b, w') →
    reqs w' = reqs w ++ map source_request keys ∧
    b = success && forallb (source_ok E) keys ∧
    ∀ key, key ∈ keys → format (catalog key) = "zip" →
           source_ok E key = true →
           lookup_node (fs w') (extract_dir self key) = Some Dir ∧
           archive_extracted E self key (fs w').
Proof.
  induction keys as [|key0 keys IH]; intros success w b w' Hrun.
  { injection Hrun as <- <-. rewrite app_nil_r, andb_true_r.
    split_and!; [done|done|]. intros key Hin. by apply elem_of_nil in Hin. }
  cbn [nic_loop] in Hrun.
  apply bind_ok_inv in Hrun as (s & w0 & Hget & Hrun).
  unfold getitem in Hget.
  destruct (dict_get DATA_SOURCES key0) as [s0|] eqn:Hs0; [|discriminate].
  injection Hget as -> <-. apply catalog_get in Hs0. cbv zeta in Hrun.
  apply bind_ok_inv in Hrun as (ok & w1 & Hdl & Hrun).
  destruct (download_file_result _ _ _ _ _ _ _ Hdl) as [Hok Hreqs1].
  apply bind_ok_inv in Hrun as (b1 & w2 & Hstep & Hrest).
  pose proof (preserves_run fs_le _ _ _ _ (fs_le_nic_loop E _ _ _) Hrest)
    as Hle.
  destruct (IH _ _ _ _ Hrest) as (Hreqs & Hb & Hkeys).
  assert (source_ok E key0 = ok) as Hsok.
  { unfold source_ok, source_request. by rewrite Hs0. }
  assert (source_request key0 = file_request (url s)) as Hreq0.
  { unfold source_request. by rewrite Hs0. }
  assert (reqs w2 = reqs w1 ∧ b1 = (if ok then success else false) ∧
          (format s = "zip" → ok = true →
           lookup_node (fs w2) (extract_dir self key0) = Some Dir ∧
           archive_extracted E self key0 (fs w2)))
    as (Hreqs2 & Hb1 & Hzip).
  { destruct ok; [|injection Hstep as <- <-; done].
    destruct (String.eqb (format s) "zip") eqn:Hfmt.
    - apply bind_ok_inv in Hstep as ([] & wa & Hmk & Hstep).
      apply bind_ok_inv in Hstep as (l & wb & Hx & Hstep).
      injection Hstep as <- <-.
      pose proof (preserves_run same_reqs _ _ _ _
                    (same_reqs_mkdir _ _ _) Hmk) as Hr1.
      pose proof (preserves_run same_reqs _ _ _ _
                    (same_reqs_extract_zip _ _ _) Hx) as Hr2.
      unfold same_reqs in *. split_and!; [congruence|done|].
      intros _ _. fold (extract_dir self key0) in Hmk, Hx.
      rewrite <- Hs0 in Hmk, Hx. fold (extract_dir self key0) in Hmk, Hx.
      split.
      + pose proof (preserves_run fs_le _ _ _ _
                      (fs_le_extract_zip E _ _ _) Hx) as Hle2.
        eapply fs_le_is_dir; [exact Hle2|]. by eapply mkdir_ok.
      + intros r members Hr Hz Hsound.
        destruct (download_file_true _ _ _ _ _ _ Hdl) as (r' & Hr' & Hfile).
        rewrite Hreq0 in Hr. rewrite Hr in Hr'. injection Hr' as <-.
        eapply extract_zip_extracts; [|exact Hz|exact Hsound|exact Hx].
        pose proof (preserves_run dirs_only _ _ _ _
                      (dirs_only_mkdir _ _ _) Hmk) as [_ Hd].
        rewrite Hs0.
        remember (path_div (path_div (output_dir self) "nic") (filename s))
          as zp eqn:Hzp.
        clear Hzp Hdl Hx. destruct zp as [|c zp]; [done|].
        unfold lookup_node in Hfile |- *.
        destruct (Hd (c :: zp)) as [->|[_ [Hnone _]]]; [done | congruence].
    - injection Hstep as <- <-. split_and!; [done|done|].
      intros Hz. rewrite Hz in Hfmt. discriminate. }
  split_and!.
  - cbn [map]. rewrite Hreqs, Hreqs2, Hreqs1, Hreq0.
    by rewrite <- app_assoc.
  - rewrite Hb, Hb1. cbn [forallb]. rewrite Hsok.
    destruct ok, success; done.
  - intros key Hin Hfmt Hsrc. apply elem_of_cons in Hin as [->|Hin].
    + rewrite Hs0 in Hfmt. rewrite Hsok in Hsrc.
      destruct (Hzip Hfmt Hsrc) as [Hdir Hex]. split.
      * by eapply fs_le_is_dir.
      * intros r members Hr Hz Hsound.
        eapply Forall_impl; [exact (Hex r members Hr Hz Hsound)|].
        intros m Hm. by eapply fs_le_present.
    + by apply Hkeys.
Qed.

End NicStep.

Lemma nic_sources_eq :
  nic_sources =
    ["nic_data_dictionary"; "nic_attributes_csv"; "nic_attributes_closed_csv";
     "nic_attributes_branches_csv"; "nic_relationships_csv";
     "nic_transformations_csv"].
Proof. reflexivity. Qed.

Lemma zip_keys_eq :
  zip_keys =
    ["nic_attributes_csv"; "nic_attributes_closed_csv";
     "nic_attributes_branches_csv"; "nic_relationships_csv";
     "nic_transformations_csv"].
Proof. reflexivity. Qed.

Lemma zip_keys_nic key : key ∈ zip_keys → key ∈ nic_sources.
Proof.
  rewrite zip_keys_eq, nic_sources_eq. intros Hin.
  apply elem_of_cons. right. exact Hin.
Qed.

Lemma zip_keys_format key : key ∈ zip_keys → format (catalog key) = "zip".
Proof.
  rewrite zip_keys_eq. intros Hin.
  repeat (apply elem_of_cons in Hin as [->|Hin]; [reflexivity|]).
  by apply elem_of_nil in Hin.
Qed.

Lemma extract_dirs_distinct self : NoDup (extract_dir self <$> zip_keys).
Proof.
  rewrite zip_keys_eq.
  change (NoDup (((output_dir self ++ ["nic"]) ++.) <$>
                   [["NIC_Attributes_Active"]; ["NIC_Attributes_Closed"];
                    ["NIC_Attributes_Branches"]; ["NIC_Relationships"];
                    ["NIC_Transformations"]])).
  apply NoDup_fmap_2; [apply _|]. by apply (bool_decide_unpack _).
Qed.

(** The NIC step, when no error ends it. *)
Lemma download_nic_data_ok E self w success w' :
  download_nic_data E self w = (Ok success, w') →
  reqs w' = reqs w ++ map source_request nic_sources ∧
  success = forallb (source_ok E) nic_sources ∧
  ∀ key, key ∈ zip_keys → source_ok E key = true →
         lookup_node (fs w') (extract_dir self key) = Some Dir ∧
         archive_extracted E self key (fs w').
Proof.
  unfold download_nic_data. do 3 run_log. intros Hrun.
  destruct (nic_loop_ok E self _ _ _ _ _ Hrun) as (Hreqs & Hb & Hkeys).
  split_and!; [exact Hreqs|exact Hb|].
  intros key Hin Hok.
  apply Hkeys; [by apply zip_keys_nic|by apply zip_keys_format|done].
Qed.



(** ** Archives in the full run *)




(** ** Verbosity *)

Lemma sim_refl w : sim w w.
Proof. by split. Qed.

Lemma alike_ret {A} (a : A) : alike (mret a) (mret a).
Proof. intros w1 w2 Hs. by split. Qed.

Lemma alike_raise {A} e : alike (@raise A e) (raise e).
Proof. intros w1 w2 Hs. by split. Qed.

Lemma alike_get_fs : alike get_fs get_fs.
Proof. intros w1 w2 [Hf Hr]. simpl. split; [by rewrite Hf | by split]. Qed.

Lemma alike_set_fs f : alike (set_fs f) (set_fs f).
Proof. intros w1 w2 [Hf Hr]. simpl. split; [done | by split]. Qed.

Lemma alike_emit_emit ev1 ev2 : alike (emit ev1) (emit ev2).
Proof. intros w1 w2 [Hf Hr]. simpl. split; [done | by split]. Qed.

Lemma alike_emit_ret ev : alike (emit ev) (mret tt).
Proof. intros w1 w2 [Hf Hr]. simpl. split; [done | by split]. Qed.

Lemma alike_ret_emit ev : alike (mret tt) (emit ev).
Proof. intros w1 w2 [Hf Hr]. simpl. split; [done | by split]. Qed.

Lemma alike_bind {A B} (m1 m2 : M A) (k1 k2 : A → M B) :
  alike m1 m2 → (∀ a, alike (k1 a) (k2 a)) → alike (m1 ≫= k1) (m2 ≫= k2).
Proof.
  intros Hm Hk w1 w2 Hs. rewrite !bind_run. destruct (Hm w1 w2 Hs) as [Ho Hs'].
  destruct (m1 w1) as [[a1|e1] w1'], (m2 w2) as [[a2|e2] w2'];
    simpl in *; simplify_eq; [by apply Hk | done].
Qed.

Lemma alike_try_except {A} (b1 b2 : M A) handled (h1 h2 : exn → M A) :
  alike b1 b2 → (∀ e, alike (h1 e) (h2 e)) →
  alike (try_except b1 handled h1) (try_except b2 handled h2).
Proof.
  intros Hb Hh w1 w2 Hs. rewrite !try_except_run.
  destruct (Hb w1 w2 Hs) as [Ho Hs'].
  destruct (b1 w1) as [[a1|e1] w1'], (b2 w2) as [[a2|e2] w2'];
    simpl in *; simplify_eq; [done|].
  destruct (handled e2); [by apply Hh | done].
Qed.

Lemma alike_get E req : alike (get E req) (get E req).
Proof.
  intros w1 w2 [Hf Hr]. rewrite !get_run. simpl.
  destruct (session_get E req) as [e|r]; [by rewrite Hr|].
  destruct (req_stream req); [by rewrite Hr|].
  destruct (body_error r); by rewrite Hr.
Qed.

Create HintDb alike discriminated.

Ltac alike_step :=
  lazymatch goal with
  | |- alike (mret _) (mret _) => apply alike_ret
  | |- alike (raise _) (raise _) => apply alike_raise
  | |- alike get_fs get_fs => apply alike_get_fs
  | |- alike (set_fs _) (set_fs _) => apply alike_set_fs
  | |- alike (emit _) (emit _) => apply alike_emit_emit
  | |- alike (print _) (print _) => apply alike_emit_emit
  | |- alike (emit _) (mret _) => apply alike_emit_ret
  | |- alike (print _) (mret _) => apply alike_emit_ret
  | |- alike (mret _) (emit _) => apply alike_ret_emit
  | |- alike (mret _) (print _) => apply alike_ret_emit
  | |- alike (get _ _) (get _ _) => apply alike_get
  | |- alike (mbind _ _) (mbind _ _) => apply alike_bind; [|intros ?]
  | |- alike (try_except _ _ _) (try_except _ _ _) =>
      apply alike_try_except; [|intros ?]
  | |- alike (if ?b then _ else _) (if ?b then _ else _) => destruct b
  | |- alike (if ?b1 then _ else _) (if ?b2 then _ else _) =>
      destruct b1, b2
  | |- alike (match ?x with _ => _ end) (match ?x with _ => _ end) =>
      destruct x
  | |- alike ?m1 ?m2 =>
      first [ match goal with H : alike m1 m2 |- _ => exact H end
            | match goal with
              | H : ∀ _, alike _ _ |- _ => apply H
              | H : ∀ _ _, alike _ _ |- _ => apply H
              end
            | solve [auto with alike nocore] ]
  end.

Ltac alike_tac := cbv zeta; cbn [verbose output_dir downloader]; repeat alike_step.

Lemma alike_os_mkdir p : alike (os_mkdir p) (os_mkdir p).
Proof. unfold os_mkdir. alike_tac. Qed.

Lemma alike_open_w p : alike (open_w p) (open_w p).
Proof. unfold open_w. alike_tac. Qed.

Lemma alike_alter_node g p : alike (alter_node g p) (alter_node g p).
Proof. unfold alter_node. alike_tac. Qed.

#[export] Hint Resolve alike_os_mkdir alike_open_w alike_alter_node : alike.

Lemma alike_put_content p c : alike (put_content p c) (put_content p c).
Proof. apply alike_alter_node. Qed.

Lemma alike_write_bytes p chunk : alike (write_bytes p chunk) (write_bytes p chunk).
Proof. apply alike_alter_node. Qed.

Lemma alike_mkdir_flat p exist_ok :
  alike (mkdir_flat p exist_ok) (mkdir_flat p exist_ok).
Proof. unfold mkdir_flat. alike_tac. Qed.

#[export] Hint Resolve alike_put_content alike_write_bytes alike_mkdir_flat
  : alike.

Lemma alike_mkdir_rev rp parents exist_ok :
  alike (mkdir_rev rp parents exist_ok) (mkdir_rev rp parents exist_ok).
Proof.
  revert parents exist_ok. induction rp as [|c rp IH]; intros; simpl;
    alike_tac.
Qed.

Lemma alike_mkdir p parents exist_ok :
  alike (mkdir p parents exist_ok) (mkdir p parents exist_ok).
Proof. apply alike_mkdir_rev. Qed.

Lemma alike_makedirs_rev rp : alike (makedirs_rev rp) (makedirs_rev rp).
Proof. induction rp as [|c rp IH]; simpl; alike_tac. Qed.

Lemma alike_makedirs p : alike (makedirs p) (makedirs p).
Proof. apply alike_makedirs_rev. Qed.

Lemma alike_getitem {V} (d : list (string * V)) key :
  alike (getitem d key) (getitem d key).
Proof. unfold getitem. alike_tac. Qed.

Lemma alike_log s1 s2 msg1 msg2 : alike (log s1 msg1) (log s2 msg2).
Proof. unfold log. alike_tac. Qed.

#[export] Hint Resolve alike_mkdir alike_makedirs alike_getitem alike_log
  : alike.

(** Two downloaders for the same directory, of any verbosity, run every
    method alike. *)
Section Verbosity.

Variables (E : env) (out_dir : path) (v1 v2 : bool).

Let s1 := downloader out_dir v1.
Let s2 := downloader out_dir v2.

Lemma alike_write_chunks p total chunks downloaded :
  alike (write_chunks s1 p total chunks downloaded)
        (write_chunks s2 p total chunks downloaded).
Proof using Type.
  revert downloaded. induction chunks as [|chunk chunks IH]; intros; simpl.
  - alike_tac.
  - destruct chunk as [|b chunk]; [apply IH|]. subst s1 s2. alike_tac.
Qed.

Lemma alike_download_file url p description :
  alike (download_file E s1 url p description)
        (download_file E s2 url p description).
Proof using Type.
  unfold download_file, raise_for_status, int_content_length.
  pose proof alike_write_chunks. subst s1 s2. alike_tac.
Qed.

Lemma alike_ZipFile p : alike (ZipFile E p) (ZipFile E p).
Proof using Type. unfold ZipFile, read_file. alike_tac. Qed.

Lemma alike_extract_member targetpath m :
  alike (extract_member targetpath m) (extract_member targetpath m).
Proof using Type. unfold extract_member. alike_tac. Qed.

Lemma alike_extractall members targetpath :
  alike (extractall members targetpath) (extractall members targetpath).
Proof using Type.
  induction members as [|m members IH]; simpl; alike_tac.
  apply alike_extract_member.
Qed.

Lemma alike_extract_zip zip_path dir :
  alike (extract_zip E s1 zip_path dir) (extract_zip E s2 zip_path dir).
Proof using Type.
  unfold extract_zip.
  pose proof alike_ZipFile. pose proof alike_extractall. alike_tac.
Qed.

Lemma alike_fdic_loop keys success :
  alike (fdic_loop E s1 keys success) (fdic_loop E s2 keys success).
Proof using Type.
  revert success. induction keys as [|key keys IH]; intros; simpl.
  - alike_tac.
  - apply alike_bind; [apply alike_getitem|intros source].
    apply alike_bind; [apply alike_download_file|intros ok]. apply IH.
Qed.

Lemma alike_download_fdic_failed_banks :
  alike (download_fdic_failed_banks E s1) (download_fdic_failed_banks E s2).
Proof using Type.
  unfold download_fdic_failed_banks.
  repeat (apply alike_bind; [apply alike_log|intros _]).
  apply alike_fdic_loop.
Qed.

Lemma alike_download_fdic_api_data endpoint limit :
  alike (download_fdic_api_data E s1 endpoint limit)
        (download_fdic_api_data E s2 endpoint limit).
Proof using Type.
  unfold download_fdic_api_data, raise_for_status. alike_tac.
Qed.

Lemma alike_dict_to_list fieldnames row :
  alike (dict_to_list fieldnames row) (dict_to_list fieldnames row).
Proof using Type. unfold dict_to_list, py_keys. alike_tac. Qed.

Lemma alike_writerows p fieldnames rows :
  alike (writerows p fieldnames rows) (writerows p fieldnames rows).
Proof using Type.
  induction rows as [|row rows IH]; simpl; alike_tac.
  apply alike_dict_to_list.
Qed.

Lemma alike__json_to_csv records p :
  alike (_json_to_csv s1 records p) (_json_to_csv s2 records p).
Proof using Type.
  unfold _json_to_csv, py_first, py_keys.
  pose proof alike_writerows. alike_tac.
Qed.

Lemma alike_download_fdic_failures_api :
  alike (download_fdic_failures_api E s1) (download_fdic_failures_api E s2).
Proof using Type.
  unfold download_fdic_failures_api, py_in, py_getitem.
  pose proof alike_download_fdic_api_data. pose proof alike__json_to_csv.
  subst s1 s2. alike_tac.
Qed.

Lemma alike_nic_loop keys success :
  alike (nic_loop E s1 keys success) (nic_loop E s2 keys success).
Proof using Type.
  revert success. induction keys as [|key keys IH]; intros; simpl.
  - alike_tac.
  - apply alike_bind; [apply alike_getitem|intros source].
    apply alike_bind; [apply alike_download_file|intros ok].
    apply alike_bind; [|intros b; apply IH].
    destruct ok; [|alike_tac].
    destruct (String.eqb (format source) "zip"); [|alike_tac].
    apply alike_bind; [apply alike_mkdir|intros _].
    apply alike_bind; [apply alike_extract_zip|intros _]. alike_tac.
Qed.

Lemma alike_download_nic_data :
  alike (download_nic_data E s1) (download_nic_data E s2).
Proof using Type.
  unfold download_nic_data.
  repeat (apply alike_bind; [apply alike_log|intros _]).
  apply alike_nic_loop.
Qed.

Lemma alike_download_chicago_fed_data :
  alike (download_chicago_fed_data s1) (download_chicago_fed_data s2).
Proof using Type.
  unfold download_chicago_fed_data.
  repeat (apply alike_bind; [apply alike_log|intros _]).
  subst s1 s2. alike_tac.
Qed.

Lemma alike_download_cdr_info :
  alike (download_cdr_info s1) (download_cdr_info s2).
Proof using Type.
  unfold download_cdr_info.
  repeat (apply alike_bind; [apply alike_log|intros _]).
  subst s1 s2. alike_tac.
Qed.

Lemma alike__save_manifest results :
  alike (_save_manifest E s1 results) (_save_manifest E s2 results).
Proof using Type. unfold _save_manifest. subst s1 s2. alike_tac. Qed.

Lemma alike_download_all : alike (download_all E s1) (download_all E s2).
Proof using Type.
  unfold download_all. cbv zeta.
  apply alike_bind; [apply alike_download_fdic_failed_banks|intros r1].
  apply alike_bind; [apply alike_download_fdic_failures_api|intros r2].
  apply alike_bind; [apply alike_download_nic_data|intros r3].
  apply alike_bind; [apply alike_download_chicago_fed_data|intros r4].
  apply alike_bind; [apply alike_download_cdr_info|intros r5].
  apply alike_bind; [apply alike__save_manifest|intros _]. alike_tac.
Qed.

Lemma alike_print_sources pre items :
  alike (print_sources pre items) (print_sources pre items).
Proof using Type.
  induction items as [|[key source] items IH]; simpl; alike_tac.
Qed.

Lemma alike_list_sources : alike (list_sources s1) (list_sources s2).
Proof using Type.
  unfold list_sources. pose proof alike_print_sources. alike_tac.
Qed.

Lemma alike_print_summary results :
  alike (print_summary results) (print_summary results).
Proof using Type.
  induction results as [|[source success] results IH]; simpl; alike_tac.
Qed.

End Verbosity.

(** The constructor does the same whatever the verbosity it records. *)
Lemma init_value out_dir verb w :
  init out_dir verb w =
  match init out_dir true w with
  | (Ok _, w') => (Ok (downloader out_dir verb), w')
  | (Raise e, w') => (Raise e, w')
  end.
Proof.
  unfold init. cbv zeta. cbn [output_dir].
  do 5 (rewrite !bind_run;
        match goal with
        | |- context [mkdir ?p ?a ?b ?w0] =>
            destruct (mkdir p a b w0) as [[[]|?] ?]
        end; [|reflexivity]).
  reflexivity.
Qed.

Lemma alike_init_true out_dir :
  alike (init out_dir true) (init out_dir true).
Proof. unfold init. alike_tac. Qed.

Lemma alike_main E a q1 q2 :
  alike (main E (with_quiet q1 a)) (main E (with_quiet q2 a)).
Proof.
  intros w1 w2 Hs. unfold main. rewrite !bind_run.
  cbn [with_quiet arg_output_dir arg_quiet arg_list arg_all arg_fdic arg_nic
       arg_chicago_fed arg_cdr].
  rewrite (init_value _ (negb q1) w1), (init_value _ (negb q2) w2).
  destruct (alike_init_true (path_of_string (arg_output_dir a)) w1 w2 Hs)
    as [Ho Hs'].
  destruct (init (path_of_string (arg_output_dir a)) true w1)
    as [[d1|e1] w1'],
    (init (path_of_string (arg_output_dir a)) true w2) as [[d2|e2] w2'];
    simpl in Ho, Hs'; simplify_eq; [|done].
  revert w1' w2' Hs'.
  change (alike
    (let downloader := downloader (path_of_string (arg_output_dir a)) (negb q1) in
     if arg_list a then list_sources downloader
     else if arg_all a then
       results ← download_all E downloader;
       print (nl +:+ string_repeat "=" 50);;
       print "DOWNLOAD SUMMARY";;
       print (string_repeat "=" 50);;
       print_summary results
     else
       (if arg_fdic a then
          download_fdic_failed_banks E downloader;;
          download_fdic_failures_api E downloader;;
          mret tt
        else mret tt);;
       (if arg_nic a then download_nic_data E downloader;; mret tt
        else mret tt);;
       (if arg_chicago_fed a
        then download_chicago_fed_data downloader;; mret tt else mret tt);;
       (if arg_cdr a then download_cdr_info downloader;; mret tt
        else mret tt);;
       if negb (arg_all a || arg_fdic a || arg_nic a || arg_chicago_fed a
                || arg_cdr a)
       then emit Help
       else mret tt)
    (let downloader := downloader (path_of_string (arg_output_dir a)) (negb q2) in
     if arg_list a then list_sources downloader
     else if arg_all a then
       results ← download_all E downloader;
       print (nl +:+ string_repeat "=" 50);;
       print "DOWNLOAD SUMMARY";;
       print (string_repeat "=" 50);;
       print_summary results
     else
       (if arg_fdic a then
          download_fdic_failed_banks E downloader;;
          download_fdic_failures_api E downloader;;
          mret tt
        else mret tt);;
       (if arg_nic a then download_nic_data E downloader;; mret tt
        else mret tt);;
       (if arg_chicago_fed a
        then download_chicago_fed_data downloader;; mret tt else mret tt);;
       (if arg_cdr a then download_cdr_info downloader;; mret tt
        else mret tt);;
       if negb (arg_all a || arg_fdic a || arg_nic a || arg_chicago_fed a
                || arg_cdr a)
       then emit Help
       else mret tt)).
  cbv zeta.
  pose proof (alike_list_sources (path_of_string (arg_output_dir a))
                (negb q1) (negb q2)).
  pose proof (alike_download_all E (path_of_string (arg_output_dir a))
                (negb q1) (negb q2)).
  pose proof (alike_download_fdic_failed_banks E
                (path_of_string (arg_output_dir a)) (negb q1) (negb q2)).
  pose proof (alike_download_fdic_failures_api E
                (path_of_string (arg_output_dir a)) (negb q1) (negb q2)).
  pose proof (alike_download_nic_data E (path_of_string (arg_output_dir a))
                (negb q1) (negb q2)).
  pose proof (alike_download_chicago_fed_data
                (path_of_string (arg_output_dir a)) (negb q1) (negb q2)).
  pose proof (alike_download_cdr_info (path_of_string (arg_output_dir a))
                (negb q1) (negb q2)).
  pose proof alike_print_summary.
  destruct (arg_list a); [done|].
  destruct (arg_all a); [repeat alike_step|].
  destruct (arg_fdic a), (arg_nic a), (arg_chicago_fed a), (arg_cdr a);
    repeat alike_step.
Qed.

(** C10.  Two runs that differ in verbosity only, from worlds with the same
    filesystem and the same requests sent, end the same way: each method
    returns the same value or raises the same exception, the filesystems
    are equal again (the files written and their contents) and so are the
    requests sent.  For the whole program, [--quiet] changes the printed
    output at most. *)
Theorem verbosity_changes_output_only E out_dir v1 v2 :
  let s1 := downloader out_dir v1 in
  let s2 := downloader out_dir v2 in
  (∀ url p description,
     alike (download_file E s1 url p description)
           (download_file E s2 url p description)) ∧
  (∀ zip_path dir,
     alike (extract_zip E s1 zip_path dir) (extract_zip E s2 zip_path dir)) ∧
  alike (download_fdic_failed_banks E s1) (download_fdic_failed_banks E s2) ∧
  alike (download_fdic_failures_api E s1) (download_fdic_failures_api E s2) ∧
  alike (download_nic_data E s1) (download_nic_data E s2) ∧
  alike (download_chicago_fed_data s1) (download_chicago_fed_data s2) ∧
  alike (download_cdr_info s1) (download_cdr_info s2) ∧
  alike (download_all E s1) (download_all E s2) ∧
  (∀ a w,
     let loud := main E (with_quiet false a) w in
     let quiet := main E (with_quiet true a) w in
     fst quiet = fst loud ∧
     fs (snd quiet) = fs (snd loud) ∧
     reqs (snd quiet) = reqs (snd loud)).
Proof.
  cbv zeta. split_and!.
  - intros. apply alike_download_file.
  - intros. apply alike_extract_zip.
  - apply alike_download_fdic_failed_banks.
  - apply alike_download_fdic_failures_api.
  - apply alike_download_nic_data.
  - apply alike_download_chicago_fed_data.
  - apply alike_download_cdr_info.
  - apply alike_download_all.
  - intros a w.
    destruct (alike_main E a true false w w (sim_refl w)) as [Ho [Hf Hr]].
    done.
Qed.

(** A loud and a quiet full run side by side: the output differs, the
    results and the files do not. *)
Lemma loud_and_quiet_example :
  let loud := download_all offline (downloader ["out"] true) ready_world in
  let quiet := download_all offline (downloader ["out"] false) ready_world in
  out (snd quiet) = [] ∧ out (snd loud) ≠ [] ∧
  fst quiet = fst loud ∧ fs (snd quiet) = fs (snd loud).
Proof.
  cbv zeta. split_and!; [vm_compute; reflexivity| |
                         vm_compute; reflexivity|vm_compute; reflexivity].
  intros H. vm_compute in H. discriminate.
Qed.
